(** * GenTaxAI: the chat endpoint and its session store

    A shallow embedding of [gentaxai/main.py]: the per-request handler
    [chat_endpoint], the transcript rendering [to_langchain_messages] and
    the persistence pair made of [save_sessions] and the module-level load
    of [CONVERSATIONS].

    Python values are modelled as follows.
    - A [str] is a list of Unicode code points ([N]); [lit] injects an
      ASCII literal of the source.
    - The dict [CONVERSATIONS] is a [gmap] from session ids to transcripts;
      a transcript is a list of [turn] records.
    - The external collaborators ([retrieve], [llm.invoke], [uuid.uuid4] and
      the file system) are supplied per request by an [env] record, so
      that every behaviour they may show is quantified over.
    - The handler runs in a state and exception monad [M] whose state holds
      the dict, the bytes of the sessions file and a log of the observable
      calls.
    - [json.dump] and [json.load] are modelled on text, the utf-8 codec of
      the file between text and bytes. *)

From Stdlib Require Import ZArith NArith List String Ascii Lia.
From Stdlib Require Import DecimalZ.
From stdpp Require Import base option list gmap.
Import ListNotations.

Local Open Scope N_scope.
Local Open Scope list_scope.

(** ** Strings *)

Abbreviation char := N (only parsing).
Abbreviation str := (list N) (only parsing).

(** An ASCII literal of the source as a [str]. *)
Definition lit (s : string) : str :=
  map N_of_ascii (list_ascii_of_string s).

Definition LF : char := 10.

(** [str.isspace] on one code point: the code points CPython's
    [_PyUnicode_IsWhitespace] accepts. *)
Definition isspace (c : char) : bool :=
  ((9 <=? c) && (c <=? 13))
  || ((28 <=? c) && (c <=? 32))
  || (c =? 133) || (c =? 160) || (c =? 5760)
  || ((8192 <=? c) && (c <=? 8202))
  || (c =? 8232) || (c =? 8233) || (c =? 8239) || (c =? 8287)
  || (c =? 12288).

(** [str.lstrip()], [str.rstrip()] and [str.strip()] without argument. *)
Fixpoint lstrip (s : str) : str :=
  match s with
  | c :: s' => if isspace c then lstrip s' else s
  | [] => []
  end.

Definition rstrip (s : str) : str := rev (lstrip (rev s)).

Definition strip (s : str) : str := rstrip (lstrip s).

(** Truth value of a [str]: the empty string is the only falsy one. *)
Definition truthy (s : str) : bool :=
  match s with [] => false | _ :: _ => true end.

(** [sep.join(parts)]. *)
Fixpoint join (sep : str) (parts : list str) : str :=
  match parts with
  | [] => []
  | [p] => p
  | p :: ps => p ++ sep ++ join sep ps
  end.

(** [str(i)] for an [int]: decimal digits, with a minus sign when negative. *)
Fixpoint digits_of_uint (d : Decimal.uint) : str :=
  match d with
  | Decimal.Nil => []
  | Decimal.D0 d' => 48 :: digits_of_uint d'
  | Decimal.D1 d' => 49 :: digits_of_uint d'
  | Decimal.D2 d' => 50 :: digits_of_uint d'
  | Decimal.D3 d' => 51 :: digits_of_uint d'
  | Decimal.D4 d' => 52 :: digits_of_uint d'
  | Decimal.D5 d' => 53 :: digits_of_uint d'
  | Decimal.D6 d' => 54 :: digits_of_uint d'
  | Decimal.D7 d' => 55 :: digits_of_uint d'
  | Decimal.D8 d' => 56 :: digits_of_uint d'
  | Decimal.D9 d' => 57 :: digits_of_uint d'
  end.

Definition str_of_int (z : Z) : str :=
  match Z.to_int z with
  | Decimal.Pos d => digits_of_uint d
  | Decimal.Neg d => 45 :: digits_of_uint d
  end.

(** The values a snippet field may hold, and [str(v)] on them. *)
Inductive pyval : Type :=
| PyStr (s : str)
| PyInt (z : Z)
| PyBool (b : bool)
| PyNone.

Definition py_str (v : pyval) : str :=
  match v with
  | PyStr s => s
  | PyInt z => str_of_int z
  | PyBool true => lit "True"
  | PyBool false => lit "False"
  | PyNone => lit "None"
  end.

(** ** Data model *)

(** One element of a transcript: the dict [{"role": ..., "content": ...}]. *)
Record turn : Type := Turn { role : str; content : str }.

#[global] Instance turn_eq_dec : EqDecision turn.
Proof. solve_decision. Defined.

(** A retrieved snippet is a dict read with [hit.get(key, default)]. *)
Abbreviation hit := (gmap (list N) pyval) (only parsing).

(** One element of [citations_payload]: the dict with the keys
    ["id"], ["source"] and ["chunk_id"]. *)
Record citation : Type :=
  Citation { c_id : str; c_source : str; c_chunk_id : str }.

Record ChatQuery : Type :=
  { q_question : option str; q_session_id : option str }.

Record ChatResponse : Type :=
  { r_answer : str;
    r_session_id : option str;
    r_citations : option (list citation) }.

Record SessionResponse : Type :=
  { sr_session_id : str; sr_message : str }.

(** The message classes of [langchain.schema]. *)
Inductive lc_message : Type :=
| SystemMessage (c : str)
| HumanMessage (c : str)
| AIMessage (c : str).

Definition SYSTEM_PROMPT : str :=
  lit "You are GenTaxAI, a precise and helpful Indian tax assistant." ++ [LF]
  ++ lit "You specialize in Indian taxation including Income Tax, GST, MSME, RBI, SEBI and related compliance." ++ [LF]
  ++ lit "Use the provided CONTEXT snippets as the primary source of truth. If a user asks "
  ++ lit "for something covered in context, quote or paraphrase that accurately. If the answer "
  ++ lit "is not in context, answer from your knowledge carefully and clearly say when you are not certain." ++ [LF]
  ++ lit "Always prefer official wording in the snippets when giving definitions or rules." ++ [LF]
  ++ lit "Keep responses concise but comprehensive.".

Definition system_turn : turn := Turn (lit "system") SYSTEM_PROMPT.

Definition to_langchain_messages (history : list turn) : list lc_message :=
  foldl
    (fun msgs msg =>
       if decide (role msg = lit "system") then
         msgs ++ [SystemMessage (content msg)]
       else if decide (role msg = lit "user") then
         msgs ++ [HumanMessage (content msg)]
       else if decide (role msg = lit "assistant") then
         msgs ++ [AIMessage (content msg)]
       else msgs)
    [] history.

(** ** The outside world *)

(** What a call to a collaborator does: it returns a value, or raises an
    exception [e] of which only [str(e)] is ever looked at. *)
Inductive outcome (A : Type) : Type :=
| Returns (a : A)
| Raises (msg : str).
Arguments Returns {A} a.
Arguments Raises {A} msg.

(** The collaborators as they behave during one request.
    - [uuid4] is the value of [str(uuid.uuid4())].
    - [retrieve] is [gentaxai.knowledge.retrieve]; [None] stands for a
      returned [None].
    - [llm_invoke] gives [llm.invoke(messages).content].
    - [fs_ok] tells whether the operating system lets the sessions file be
      opened and written; when a write raises, [fs_fault] gives the text of
      the exception and the bytes the file holds afterwards. *)
Record env : Type :=
  { uuid4 : str;
    retrieve : str -> Z -> outcome (option (list hit));
    llm_invoke : list lc_message -> outcome str;
    fs_ok : bool;
    fs_fault : str * option (list N) }.

(** The calls and prints a handler makes, in the order it makes them;
    [WriteFile text] is the attempt of [save_sessions] to write [text] to
    the sessions file. *)
Inductive event : Type :=
| CallRetrieve (query : str) (k : Z)
| CallInvoke (messages : list lc_message)
| WriteFile (text : str)
| PrintOut (words : list str).

(** The process state: the dict [CONVERSATIONS], the bytes held by the
    file named [SESSIONS_FILE] ([None] when the file does not exist) and
    the log of events so far. *)
Record state : Type :=
  { CONVERSATIONS : gmap (list N) (list turn);
    disk : option (list N);
    log : list event }.

Definition with_CONVERSATIONS (c : gmap (list N) (list turn)) (s : state) : state :=
  {| CONVERSATIONS := c; disk := disk s; log := log s |}.

Definition with_disk (d : option (list N)) (s : state) : state :=
  {| CONVERSATIONS := CONVERSATIONS s; disk := d; log := log s |}.

(** ** The handler monad *)

Inductive exn : Type :=
| HTTPException (status_code : Z) (detail : str)
| KeyError (key : str).

Inductive result (A : Type) : Type :=
| Ok (a : A)
| Raise (e : exn).
Arguments Ok {A} a.
Arguments Raise {A} e.

Definition M (A : Type) : Type := state -> result A * state.

Definition ret {A} (a : A) : M A := fun s => (Ok a, s).

Definition bind {A B} (m : M A) (k : A -> M B) : M B :=
  fun s =>
    match m s with
    | (Ok a, s') => k a s'
    | (Raise e, s') => (Raise e, s')
    end.

Definition raise {A} (e : exn) : M A := fun s => (Raise e, s).

Definition emit (ev : event) : M unit :=
  fun s =>
    (Ok tt,
     {| CONVERSATIONS := CONVERSATIONS s; disk := disk s; log := log s ++ [ev] |}).

Declare Scope handler_scope.
Delimit Scope handler_scope with handler.
Notation "x <- m ;; k" := (bind m (fun x => k))
  (at level 100, m at next level, right associativity) : handler_scope.
Notation "m ;; k" := (bind m (fun _ => k))
  (at level 100, right associativity) : handler_scope.
Local Open Scope handler_scope.

(** [name in CONVERSATIONS]. *)
Definition contains_session (session_id : str) : M bool :=
  fun s => (Ok (bool_decide (is_Some (CONVERSATIONS s !! session_id))), s).

(** [CONVERSATIONS[session_id] = history]. *)
Definition set_session (session_id : str) (history : list turn) : M unit :=
  fun s => (Ok tt, with_CONVERSATIONS (<[session_id := history]> (CONVERSATIONS s)) s).

(** [CONVERSATIONS[session_id]]. *)
Definition get_session (session_id : str) : M (list turn) :=
  fun s =>
    match CONVERSATIONS s !! session_id with
    | Some history => (Ok history, s)
    | None => (Raise (KeyError session_id), s)
    end.

(** [CONVERSATIONS[session_id].append(t)]: the list is a shared object, so
    the append shows in the dict. *)
Definition append_turn (session_id : str) (t : turn) : M unit :=
  history <- get_session session_id ;;
  set_session session_id (history ++ [t]).

(** ** JSON text: [json.dump] and [json.load]

    The part of Python's [json] module the program relies on, over the
    values that module reads and writes. *)

Inductive json : Type :=
| JNull
| JBool (b : bool)
| JNum (lexeme : str)
| JStr (s : str)
| JArr (items : list json)
| JObj (members : list (list N * json)).

(** *** Encoding, as [json.dumps(v, indent=2, ensure_ascii=False)] *)

Definition hexdigit (d : N) : char :=
  if d <? 10 then 48 + d else 87 + d.

(** One character of a string literal: [ESCAPE_DCT] of [json.encoder];
    everything from U+0020 on, but the quote and the backslash, is written
    as it is. *)
Definition escape_char (c : char) : str :=
  if c =? 92 then [92; 92]
  else if c =? 34 then [92; 34]
  else if c =? 8 then [92; 98]
  else if c =? 12 then [92; 102]
  else if c =? 10 then [92; 110]
  else if c =? 13 then [92; 114]
  else if c =? 9 then [92; 116]
  else if c <? 32 then [92; 117; 48; 48; hexdigit (c / 16); hexdigit (c mod 16)]
  else [c].

Definition encode_basestring (s : str) : str :=
  [34] ++ flat_map escape_char s ++ [34].

(** A newline followed by [level] indentation steps of two spaces. *)
Definition newline_indent (level : nat) : str :=
  LF :: repeat 32 (2 * level).

Fixpoint encode (level : nat) (v : json) {struct v} : str :=
  match v with
  | JNull => lit "null"
  | JBool true => lit "true"
  | JBool false => lit "false"
  | JNum lexeme => lexeme
  | JStr s => encode_basestring s
  | JArr [] => lit "[]"
  | JArr items =>
      lit "[" ++ newline_indent (S level)
      ++ join (lit "," ++ newline_indent (S level)) (map (encode (S level)) items)
      ++ newline_indent level ++ lit "]"
  | JObj [] => lit "{}"
  | JObj members =>
      lit "{" ++ newline_indent (S level)
      ++ join (lit "," ++ newline_indent (S level))
           (map (fun kv => encode_basestring (fst kv) ++ lit ": "
                           ++ encode (S level) (snd kv)) members)
      ++ newline_indent level ++ lit "}"
  end.

Definition json_dumps (v : json) : str := encode 0 v.

(** *** Decoding, as [json.loads] *)

Definition is_json_ws (c : char) : bool :=
  (c =? 32) || (c =? 9) || (c =? 10) || (c =? 13).

Fixpoint skip_ws (s : str) : str :=
  match s with
  | c :: s' => if is_json_ws c then skip_ws s' else s
  | [] => []
  end.

Definition hexval (c : char) : option N :=
  if (48 <=? c) && (c <=? 57) then Some (c - 48)
  else if (97 <=? c) && (c <=? 102) then Some (c - 87)
  else if (65 <=? c) && (c <=? 70) then Some (c - 55)
  else None.

Definition hex4 (h1 h2 h3 h4 : char) : option N :=
  match hexval h1, hexval h2, hexval h3, hexval h4 with
  | Some a, Some b, Some c, Some d => Some (((a * 16 + b) * 16 + c) * 16 + d)
  | _, _, _, _ => None
  end.

Definition is_high_surrogate (u : N) : bool := (55296 <=? u) && (u <=? 56319).
Definition is_low_surrogate (u : N) : bool := (56320 <=? u) && (u <=? 57343).

(** The character an escape letter stands for ([BACKSLASH] of
    [json.decoder]). *)
Definition unescape (e : char) : option char :=
  if e =? 34 then Some 34
  else if e =? 92 then Some 92
  else if e =? 47 then Some 47
  else if e =? 98 then Some 8
  else if e =? 102 then Some 12
  else if e =? 110 then Some 10
  else if e =? 114 then Some 13
  else if e =? 116 then Some 9
  else None.

Definition cons_fst {A B} (a : A) (r : option (list A * B)) : option (list A * B) :=
  match r with
  | Some (x, rest) => Some (a :: x, rest)
  | None => None
  end.

(** [scanstring], strict, called just after the opening quote: the
    content of the literal and the text after its closing quote. *)
Fixpoint scan_string (s : str) : option (str * str) :=
  match s with
  | [] => None
  | c :: r =>
      if c =? 34 then Some ([], r)
      else if c =? 92 then
        match r with
        | [] => None
        | e :: r1 =>
            if e =? 117 then
              match r1 with
              | h1 :: h2 :: h3 :: h4 :: r2 =>
                  match hex4 h1 h2 h3 h4 with
                  | None => None
                  | Some u =>
                      if is_high_surrogate u then
                        match r2 with
                        | 92 :: 117 :: g1 :: g2 :: g3 :: g4 :: r3 =>
                            match hex4 g1 g2 g3 g4 with
                            | None => None
                            | Some u2 =>
                                if is_low_surrogate u2 then
                                  cons_fst
                                    (65536 + ((u - 55296) * 1024 + (u2 - 56320)))
                                    (scan_string r3)
                                else cons_fst u (scan_string r2)
                            end
                        | _ => cons_fst u (scan_string r2)
                        end
                      else cons_fst u (scan_string r2)
                  end
              | _ => None
              end
            else
              match unescape e with
              | Some c' => cons_fst c' (scan_string r1)
              | None => None
              end
        end
      else if c <? 32 then None
      else cons_fst c (scan_string r)
  end.

Definition is_digit (c : char) : bool := (48 <=? c) && (c <=? 57).

Fixpoint take_digits (s : str) : str * str :=
  match s with
  | c :: s' =>
      if is_digit c then let '(d, r) := take_digits s' in (c :: d, r)
      else ([], s)
  | [] => ([], [])
  end.

Fixpoint strip_prefix (p s : str) : option str :=
  match p, s with
  | [], _ => Some s
  | a :: p', b :: s' => if a =? b then strip_prefix p' s' else None
  | _ :: _, [] => None
  end.

(** [NUMBER_RE]: an optional sign, an integer part without leading zero,
    an optional fraction and an optional exponent; the lexeme matched and
    the text after it. *)
Definition scan_int_part (s : str) : option (str * str) :=
  match s with
  | c :: s' =>
      if c =? 48 then Some ([48], s')
      else if is_digit c then let '(d, r) := take_digits s' in Some (c :: d, r)
      else None
  | [] => None
  end.

Definition scan_frac (s : str) : str * str :=
  match s with
  | 46 :: s' =>
      match take_digits s' with
      | ([], _) => ([], s)
      | (d, r) => (46 :: d, r)
      end
  | _ => ([], s)
  end.

Definition scan_exp (s : str) : str * str :=
  match s with
  | e :: s' =>
      if (e =? 101) || (e =? 69) then
        let '(sign, s'') :=
          match s' with
          | c :: t => if (c =? 45) || (c =? 43) then ([c], t) else ([], s')
          | [] => ([], s')
          end in
        match take_digits s'' with
        | ([], _) => ([], s)
        | (d, r) => (e :: sign ++ d, r)
        end
      else ([], s)
  | [] => ([], s)
  end.

Definition scan_number (s : str) : option (str * str) :=
  let '(sign, s1) :=
    match s with
    | 45 :: t => ([45], t)
    | _ => ([], s)
    end in
  match scan_int_part s1 with
  | None => None
  | Some (i, s2) =>
      let '(f, s3) := scan_frac s2 in
      let '(x, s4) := scan_exp s3 in
      Some (sign ++ i ++ f ++ x, s4)
  end.

(** The constants and numbers of [scan_once], tried in its order. *)
Definition scan_atom (s : str) : option (json * str) :=
  match strip_prefix (lit "null") s with
  | Some r => Some (JNull, r)
  | None =>
  match strip_prefix (lit "true") s with
  | Some r => Some (JBool true, r)
  | None =>
  match strip_prefix (lit "false") s with
  | Some r => Some (JBool false, r)
  | None =>
  match scan_number s with
  | Some (lexeme, r) => Some (JNum lexeme, r)
  | None =>
  match strip_prefix (lit "NaN") s with
  | Some r => Some (JNum (lit "NaN"), r)
  | None =>
  match strip_prefix (lit "Infinity") s with
  | Some r => Some (JNum (lit "Infinity"), r)
  | None =>
  match strip_prefix (lit "-Infinity") s with
  | Some r => Some (JNum (lit "-Infinity"), r)
  | None => None
  end end end end end end end.

Section Containers.
(** The scanner for one value, at the nesting depth below. *)
Variable scan_once : str -> option (json * str).

(** The items of an array after the first [skip_ws]: a value, then a
    comma or the closing bracket. [n] bounds the number of items. *)
Fixpoint parse_items (n : nat) (s : str) : option (list json * str) :=
  match n with
  | O => None
  | S n' =>
      match scan_once s with
      | None => None
      | Some (v, r) =>
          match skip_ws r with
          | c :: r' =>
              if c =? 93 then Some ([v], r')
              else if c =? 44 then cons_fst v (parse_items n' (skip_ws r'))
              else None
          | [] => None
          end
      end
  end.

(** The members of an object after the first [skip_ws]: a string key, a
    colon, a value, then a comma or the closing brace. *)
Fixpoint parse_members (n : nat) (s : str) : option (list (list N * json) * str) :=
  match n with
  | O => None
  | S n' =>
      match s with
      | q :: s1 =>
          if q =? 34 then
            match scan_string s1 with
            | None => None
            | Some (key, r) =>
                match skip_ws r with
                | colon :: r1 =>
                    if colon =? 58 then
                      match scan_once (skip_ws r1) with
                      | None => None
                      | Some (v, r2) =>
                          match skip_ws r2 with
                          | c :: r3 =>
                              if c =? 125 then Some ([(key, v)], r3)
                              else if c =? 44 then
                                cons_fst (key, v) (parse_members n' (skip_ws r3))
                              else None
                          | [] => None
                          end
                      end
                    else None
                | [] => None
                end
            end
          else None
      | [] => None
      end
  end.
End Containers.

(** [scan_once] at a position holding no whitespace. [fuel] bounds the
    nesting depth and the number of elements of each container. *)
Fixpoint parse_value (fuel : nat) (s : str) : option (json * str) :=
  match fuel with
  | O => None
  | S fuel' =>
      match s with
      | [] => None
      | c :: r =>
          if c =? 34 then
            match scan_string r with
            | Some (x, r') => Some (JStr x, r')
            | None => None
            end
          else if c =? 123 then
            match skip_ws r with
            | [] => None
            | c' :: r' =>
                if c' =? 125 then Some (JObj [], r')
                else
                  match parse_members (parse_value fuel') fuel' (c' :: r') with
                  | Some (members, r'') => Some (JObj members, r'')
                  | None => None
                  end
            end
          else if c =? 91 then
            match skip_ws r with
            | [] => None
            | c' :: r' =>
                if c' =? 93 then Some (JArr [], r')
                else
                  match parse_items (parse_value fuel') fuel' (c' :: r') with
                  | Some (items, r'') => Some (JArr items, r'')
                  | None => None
                  end
            end
          else scan_atom s
      end
  end.

(** [json.loads(text)]: one value between optional whitespace; [None]
    stands for a raised [JSONDecodeError]. A text never nests deeper, nor
    holds more elements, than it has characters. *)
Definition json_loads (text : str) : option json :=
  match parse_value (S (length text)) (skip_ws text) with
  | Some (v, r) =>
      match skip_ws r with
      | [] => Some v
      | _ :: _ => None
      end
  | None => None
  end.

(** ** The utf-8 codec

    Files are opened with [encoding="utf-8"]: text is encoded when
    written and decoded, strictly, when read. Bytes are numbers below
    256; the shifts and masks of the codec are written as divisions and
    remainders. Line ends are written as they are, as on POSIX systems. *)

Definition is_surrogate (c : char) : bool := (55296 <=? c) && (c <=? 57343).

(** The bytes of one code point; surrogates and numbers above U+10FFFF
    have none. *)
Definition utf8_encode_char (c : char) : option (list N) :=
  if c <? 128 then Some [c]
  else if c <? 2048 then Some [192 + c / 64; 128 + c mod 64]
  else if c <? 65536 then
    if is_surrogate c then None
    else Some [224 + c / 4096; 128 + (c / 64) mod 64; 128 + c mod 64]
  else if c <? 1114112 then
    Some [240 + c / 262144; 128 + (c / 4096) mod 64;
          128 + (c / 64) mod 64; 128 + c mod 64]
  else None.

(** [text.encode("utf-8")]; [None] stands for [UnicodeEncodeError]. *)
Fixpoint utf8_encode (s : str) : option (list N) :=
  match s with
  | [] => Some []
  | c :: s' =>
      match utf8_encode_char c, utf8_encode s' with
      | Some b, Some bs => Some (b ++ bs)
      | _, _ => None
      end
  end.

Definition is_continuation (b : N) : bool := (128 <=? b) && (b <? 192).

Definition cons_opt {A} (a : A) (r : option (list A)) : option (list A) :=
  match r with
  | Some l => Some (a :: l)
  | None => None
  end.

(** [bytes.decode("utf-8")]; [None] stands for [UnicodeDecodeError]:
    stray or missing continuation bytes, overlong forms, surrogates and
    numbers above U+10FFFF are refused. *)
Fixpoint utf8_decode (bs : list N) : option str :=
  match bs with
  | [] => Some []
  | b0 :: r =>
      if b0 <? 128 then cons_opt b0 (utf8_decode r)
      else if b0 <? 194 then None
      else if b0 <? 224 then
        match r with
        | b1 :: r1 =>
            if is_continuation b1 then
              cons_opt ((b0 - 192) * 64 + (b1 - 128)) (utf8_decode r1)
            else None
        | _ => None
        end
      else if b0 <? 240 then
        match r with
        | b1 :: b2 :: r2 =>
            let c := (b0 - 224) * 4096 + (b1 - 128) * 64 + (b2 - 128) in
            if is_continuation b1 && is_continuation b2
               && (2048 <=? c) && negb (is_surrogate c)
            then cons_opt c (utf8_decode r2)
            else None
        | _ => None
        end
      else if b0 <? 245 then
        match r with
        | b1 :: b2 :: b3 :: r3 =>
            let c := (b0 - 240) * 262144 + (b1 - 128) * 4096
                     + (b2 - 128) * 64 + (b3 - 128) in
            if is_continuation b1 && is_continuation b2 && is_continuation b3
               && (65536 <=? c) && (c <? 1114112)
            then cons_opt c (utf8_decode r3)
            else None
        | _ => None
        end
      else None
  end.

(** The code points the codec accepts. *)
Definition utf8_encodable (c : char) : bool :=
  (c <? 55296) || ((57343 <? c) && (c <=? 1114111)).

(** ** The sessions file *)

(** The dict [CONVERSATIONS] as the value [json.dump] is given. Python
    writes the keys in insertion order; the order is immaterial to what is
    read back, and the map's own enumeration is used here. *)
Definition json_of_turn (t : turn) : json :=
  JObj [(lit "role", JStr (role t)); (lit "content", JStr (content t))].

Definition json_of_transcript (h : list turn) : json :=
  JArr (map json_of_turn h).

Definition json_of_entries (l : list (list N * list turn)) : json :=
  JObj (map (fun kv => (fst kv, json_of_transcript (snd kv))) l).

Definition json_of_sessions (c : gmap (list N) (list turn)) : json :=
  json_of_entries (map_to_list c).

(** The dict built from the members of an object: a later member with the
    same key replaces an earlier one. *)
Definition dict_of_members {A} (members : list (list N * A)) : gmap (list N) A :=
  foldl (fun d kv => <[fst kv := snd kv]> d) ∅ members.

(** The typed reading of a loaded value: a dict whose values are lists of
    dicts with exactly the string entries ["role"] and ["content"]. *)
Definition turn_of_json (v : json) : option turn :=
  match v with
  | JObj members =>
      let d := dict_of_members members in
      match d !! lit "role", d !! lit "content" with
      | Some (JStr r), Some (JStr c) =>
          if Nat.eqb (size d) 2 then Some (Turn r c) else None
      | _, _ => None
      end
  | _ => None
  end.

Definition transcript_of_json (v : json) : option (list turn) :=
  match v with
  | JArr items => mapM turn_of_json items
  | _ => None
  end.

Definition sessions_of_json (v : json) : option (gmap (list N) (list turn)) :=
  match v with
  | JObj members =>
      let d := dict_of_members members in
      if bool_decide (map_Forall (fun _ x => is_Some (transcript_of_json x)) d)
      then Some (omap transcript_of_json d)
      else None
  | _ => None
  end.

(** Reading in text mode turns every [\r\n] and every lone [\r] into
    [\n]. *)
Fixpoint universal_newlines (s : str) : str :=
  match s with
  | [] => []
  | c :: r =>
      if c =? 13 then
        10 :: match r with
              | [] => []
              | c' :: r' =>
                  if c' =? 10 then universal_newlines r'
                  else universal_newlines r
              end
      else c :: universal_newlines r
  end.

(** What the module-level load leaves in [CONVERSATIONS]: a dict of
    transcripts, or a value of another shape; or the module fails to load,
    [UnicodeDecodeError] not being a [JSONDecodeError]. *)
Inductive loaded : Type :=
| Sessions (c : gmap (list N) (list turn))
| Untyped (v : json)
| DecodeError.

Definition load_CONVERSATIONS (d : option (list N)) : loaded :=
  match d with
  | Some bytes =>
      match utf8_decode bytes with
      | Some text =>
          match json_loads (universal_newlines text) with
          | Some v =>
              match sessions_of_json v with
              | Some c => Sessions c
              | None => Untyped v
              end
          | None => Sessions ∅
          end
      | None => DecodeError
      end
  | None => Sessions ∅
  end.

(** The text [save_sessions] writes for a dict, and the bytes that reach
    the file when the write goes through: the operating system must allow
    it and the codec must accept every character. *)
Definition saved_text (c : gmap (list N) (list turn)) : str :=
  json_dumps (json_of_sessions c).

Definition written_bytes (e : env) (c : gmap (list N) (list turn)) : option (list N) :=
  if fs_ok e then utf8_encode (saved_text c) else None.

Definition write_succeeds (e : env) (c : gmap (list N) (list turn)) : bool :=
  match written_bytes e c with
  | Some _ => true
  | None => false
  end.

(** The [try] block either replaces the content of the file, or raises;
    the handler of the exception prints and returns. *)
Definition save_sessions (e : env) : M unit :=
  fun s =>
    let text := saved_text (CONVERSATIONS s) in
    (emit (WriteFile text) ;;
     match written_bytes e (CONVERSATIONS s) with
     | Some bytes => (fun s' => (Ok tt, with_disk (Some bytes) s'))
     | None =>
         (fun s' => (Ok tt, with_disk (snd (fs_fault e)) s')) ;;
         emit (PrintOut [lit "Error saving sessions:"; fst (fs_fault e)])
     end) s.

(** ** The chat endpoint *)

Fixpoint enumerate {A} (start : Z) (l : list A) : list (Z * A) :=
  match l with
  | [] => []
  | x :: l' => (start, x) :: enumerate (start + 1) l'
  end.

(** One round of the loop over [enumerate(kb_hits, start=1)], on the pair
    of [context_texts] and [citations_payload]. *)
Definition format_hit (acc : list (list N) * list citation) (ih : Z * gmap (list N) pyval)
  : list (list N) * list citation :=
  let '(context_texts, citations_payload) := acc in
  let '(i, h) := ih in
  let source := py_str (default (PyStr (lit "knowledge_base")) (h !! lit "source")) in
  let chunk_id := py_str (default (PyInt i) (h !! lit "chunk_id")) in
  let text := strip (py_str (default (PyStr []) (h !! lit "text"))) in
  let tag := lit "[" ++ str_of_int i ++ lit "] " ++ source ++ lit "#chunk" ++ chunk_id in
  (context_texts ++ [tag ++ [LF] ++ text],
   citations_payload ++ [Citation (str_of_int i) source chunk_id]).

Definition call_retrieve (e : env) (query : str) (k : Z)
  : M (outcome (option (list (gmap (list N) pyval)))) :=
  emit (CallRetrieve query k) ;; ret (retrieve e query k).

Definition call_invoke (e : env) (messages : list lc_message) : M (outcome str) :=
  emit (CallInvoke messages) ;; ret (llm_invoke e messages).

(** The handler of [POST /api/chat]. The body has no [await]: a request
    is handled from start to end before the next one starts. *)
Definition chat_endpoint (e : env) (query : ChatQuery) : M ChatResponse :=
  (* question = (query.question or "").strip() *)
  let question := strip (default [] (q_question query)) in
  if negb (truthy question) then
    raise (HTTPException 400 (lit "Empty question"))
  else
    (* session_id = query.session_id or str(uuid.uuid4()) *)
    let session_id :=
      match q_session_id query with
      | Some sid => if truthy sid then sid else uuid4 e
      | None => uuid4 e
      end in
    known <- contains_session session_id ;;
    (if negb known then set_session session_id [system_turn] else ret tt) ;;
    (* Retrieve relevant KB snippets: retrieve(question, k=5) or [] *)
    got <- call_retrieve e question 5 ;;
    kb_hits <-
      match got with
      | Returns (Some hits) => ret hits
      | Returns None => ret []
      | Raises msg => emit (PrintOut [lit "Retriever error:"; msg]) ;; ret []
      end ;;
    citations_payload <-
      match kb_hits with
      | [] => ret []
      | _ :: _ =>
          let '(context_texts, citations_payload) :=
            foldl format_hit ([], []) (enumerate 1 kb_hits) in
          let context_block :=
            lit "CONTEXT:" ++ [LF] ++ join [LF; LF] context_texts in
          append_turn session_id (Turn (lit "assistant") context_block) ;;
          ret citations_payload
      end ;;
    (* Add user question *)
    append_turn session_id (Turn (lit "user") question) ;;
    history <- get_session session_id ;;
    let lc_messages := to_langchain_messages history in
    (* Generate response *)
    response <- call_invoke e lc_messages ;;
    match response with
    | Raises msg => raise (HTTPException 500 (lit "LLM error: " ++ msg))
    | Returns answer =>
        append_turn session_id (Turn (lit "assistant") answer) ;;
        save_sessions e ;;
        ret {| r_answer := answer;
               r_session_id := Some session_id;
               r_citations := Some citations_payload |}
    end.

Definition new_session (e : env) : M SessionResponse :=
  ret {| sr_session_id := uuid4 e; sr_message := lit "New session created" |}.

Definition health_check : M (list (list N * list N)) :=
  ret [(lit "status", lit "healthy"); (lit "service", lit "GenTaxAI Chatbot")].

(** ** Runs *)

(** A process that starts with no sessions, over a sessions file holding
    [d]. *)
Definition empty_store (d : option (list N)) : state :=
  {| CONVERSATIONS := ∅; disk := d; log := [] |}.

(** The state after a sequence of exchanges, each with the behaviour of
    the collaborators during it. *)
Definition run (steps : list (env * ChatQuery)) (s : state) : state :=
  foldl (fun s' step => snd (chat_endpoint (fst step) (snd step) s')) s steps.

(** ** One exchange in the words of the specification

    The quantities the specification speaks of, written directly rather
    than read off the handler; the theorems relate the handler to them. *)

(** The question after trimming, and whether a request counts as blank. *)
Definition question_of (query : ChatQuery) : str :=
  strip (default [] (q_question query)).

Definition is_blank (raw : option str) : bool :=
  match raw with
  | None => true
  | Some r => forallb isspace r
  end.

(** The session an exchange is about: the one named, or a fresh one. *)
Definition session_of (e : env) (query : ChatQuery) : str :=
  match q_session_id query with
  | Some sid => if truthy sid then sid else uuid4 e
  | None => uuid4 e
  end.

(** The transcript of a session before an exchange touches it; a session
    not yet known starts with the preamble. *)
Definition transcript_before (s : state) (sid : str) : list turn :=
  default [system_turn] (CONVERSATIONS s !! sid).

(** The snippets an exchange works with. *)
Definition kb_hits_of (e : env) (query : ChatQuery) : list (gmap (list N) pyval) :=
  match retrieve e (question_of query) 5 with
  | Returns (Some hits) => hits
  | Returns None => []
  | Raises _ => []
  end.

(** The fields of the snippet at 1-based position [i], defaults filled. *)
Definition spec_source (h : gmap (list N) pyval) : str :=
  match h !! lit "source" with
  | Some v => py_str v
  | None => lit "knowledge_base"
  end.

Definition spec_chunk_id (i : nat) (h : gmap (list N) pyval) : str :=
  match h !! lit "chunk_id" with
  | Some v => py_str v
  | None => str_of_int (Z.of_nat i)
  end.

Definition spec_text (h : gmap (list N) pyval) : str :=
  match h !! lit "text" with
  | Some v => strip (py_str v)
  | None => []
  end.

Definition spec_snippet (i : nat) (h : gmap (list N) pyval) : str :=
  lit "[" ++ str_of_int (Z.of_nat i) ++ lit "] " ++ spec_source h
  ++ lit "#chunk" ++ spec_chunk_id i h ++ [LF] ++ spec_text h.

Definition spec_evidence_block (hits : list (gmap (list N) pyval)) : str :=
  lit "CONTEXT:" ++ [LF]
  ++ join [LF; LF] (imap (fun i h => spec_snippet (S i) h) hits).

Definition spec_citation (i : nat) (h : gmap (list N) pyval) : citation :=
  {| c_id := str_of_int (Z.of_nat i);
     c_source := spec_source h;
     c_chunk_id := spec_chunk_id i h |}.

(** The evidence turn of an exchange: none without snippets, one with. *)
Definition evidence_turns (hits : list (gmap (list N) pyval)) : list turn :=
  match hits with
  | [] => []
  | _ :: _ => [Turn (lit "assistant") (spec_evidence_block hits)]
  end.

(** The transcript the Inference Gateway is invoked on. *)
Definition prompt_transcript (e : env) (query : ChatQuery) (s : state) : list turn :=
  transcript_before s (session_of e query)
  ++ evidence_turns (kb_hits_of e query)
  ++ [Turn (lit "user") (question_of query)].

(** Whether an event is an attempt to write the sessions file. *)
Definition is_write (ev : event) : bool :=
  match ev with
  | WriteFile _ => true
  | _ => false
  end.

(** The strings a dict of transcripts is made of. *)
Definition strings_of_turn (t : turn) : list (list N) := [role t; content t].

Definition strings_of_sessions (c : gmap (list N) (list turn)) : list (list N) :=
  flat_map (fun kv => fst kv :: flat_map strings_of_turn (snd kv)) (map_to_list c).

(** The events of the retrieval step. *)
Definition retrieval_events (e : env) (query : ChatQuery) : list event :=
  CallRetrieve (question_of query) 5
  :: match retrieve e (question_of query) 5 with
     | Raises msg => [PrintOut [lit "Retriever error:"; msg]]
     | Returns _ => []
     end.

(** The state in which the Inference Gateway has just been invoked. *)
Definition state_at_invoke (e : env) (query : ChatQuery) (s : state) : state :=
  {| CONVERSATIONS :=
       <[session_of e query := prompt_transcript e query s]> (CONVERSATIONS s);
     disk := disk s;
     log := log s ++ retrieval_events e query
            ++ [CallInvoke (to_langchain_messages (prompt_transcript e query s))] |}.

(** The state after a successful exchange that was answered with
    [answer]. *)
Definition state_after_answer (e : env) (query : ChatQuery) (s : state) (answer : str)
  : state :=
  let c := <[session_of e query :=
               prompt_transcript e query s ++ [Turn (lit "assistant") answer]]>
             (CONVERSATIONS s) in
  {| CONVERSATIONS := c;
     disk := match written_bytes e c with
             | Some bytes => Some bytes
             | None => snd (fs_fault e)
             end;
     log := log (state_at_invoke e query s)
            ++ WriteFile (saved_text c)
               :: (if write_succeeds e c then []
                   else [PrintOut [lit "Error saving sessions:"; fst (fs_fault e)]]) |}.

(** The system turns of a transcript. *)
Definition is_system (t : turn) : bool :=
  bool_decide (role t = lit "system").

Definition system_turns (h : list turn) : list turn :=
  List.filter is_system h.

(** What an exchange with a non-blank question appends to the transcript
    of its session. *)
Definition appended (e : env) (query : ChatQuery) (s : state) : list turn :=
  evidence_turns (kb_hits_of e query)
  ++ Turn (lit "user") (question_of query)
  :: match llm_invoke e (to_langchain_messages (prompt_transcript e query s)) with
     | Returns answer => [Turn (lit "assistant") answer]
     | Raises _ => []
     end.

(** ** Notions used by the proofs *)

(** A transcript that starts with the preamble and holds no other system
    turn; a dict all of whose transcripts are so. *)
Definition not_system (t : turn) : bool := negb (is_system t).

Definition well_started (h : list turn) : Prop :=
  exists rest, h = system_turn :: rest /\ forallb not_system rest = true.

Definition store_inv (c : gmap (list N) (list turn)) : Prop :=
  forall sid h, c !! sid = Some h -> well_started h.

(** A text whose first character is not JSON whitespace. *)
Definition starts_visible (s : str) : Prop :=
  exists c body, s = c :: body /\ is_json_ws c = false.

(** One member of an object as [encode] writes it, given the encoding of
    the values. *)
Definition member_text (enc : json -> list N) (kv : list N * json) : str :=
  encode_basestring (fst kv) ++ lit ": " ++ enc (snd kv).

(** A string all of whose characters from U+0020 on satisfy [p]; the
    others are never written raw. *)
Definition raw_ok (p : N -> bool) (s : str) : bool :=
  forallb (fun c => (c <? 32) || p c) s.

(** A dict none of whose strings holds a character the codec refuses. *)
Definition encodable_sessions (c : gmap (list N) (list turn)) : bool :=
  forallb (forallb utf8_encodable) (strings_of_sessions c).

(** ** Sample requests and collaborators *)

Module Sample.

(** A snippet with a source and a padded text, and one with only a
    chunk id. *)
Definition gst_hit : gmap (list N) pyval :=
  <[lit "source" := PyStr (lit "gst.pdf")]>
    (<[lit "text" := PyStr (lit "  GST is a tax. ")]> ∅).

Definition bare_hit : gmap (list N) pyval :=
  <[lit "chunk_id" := PyInt 7]> ∅.

(** All collaborators work. *)
Definition env_up : env :=
  {| uuid4 := lit "u-1";
     retrieve := fun _ _ => Returns (Some [gst_hit; bare_hit]);
     llm_invoke := fun _ => Returns (lit "A tax on supply.");
     fs_ok := true;
     fs_fault := ([], None) |}.

(** The retriever raises. *)
Definition env_no_kb : env :=
  {| uuid4 := lit "u-1";
     retrieve := fun _ _ => Raises (lit "index missing");
     llm_invoke := fun _ => Returns (lit "A tax on supply.");
     fs_ok := true;
     fs_fault := ([], None) |}.

(** The model raises. *)
Definition env_llm_down : env :=
  {| uuid4 := lit "u-1";
     retrieve := fun _ _ => Returns (Some [gst_hit; bare_hit]);
     llm_invoke := fun _ => Raises (lit "timeout");
     fs_ok := true;
     fs_fault := ([], None) |}.

Definition ask_gst : ChatQuery :=
  {| q_question := Some (lit " What is GST? "); q_session_id := None |}.

Definition ask_blank : ChatQuery :=
  {| q_question := Some (lit "   "); q_session_id := Some (lit "u-1") |}.

Definition ask_again : ChatQuery :=
  {| q_question := Some (lit "And MSME?"); q_session_id := Some (lit "u-1") |}.

(** The state after one answered exchange from scratch, and what that
    exchange is expected to return and to record. *)
Definition after_gst : state :=
  snd (chat_endpoint env_up ask_gst (empty_store None)).

Definition gst_response : ChatResponse :=
  {| r_answer := lit "A tax on supply.";
     r_session_id := Some (lit "u-1");
     r_citations :=
       Some [Citation (lit "1") (lit "gst.pdf") (lit "1");
             Citation (lit "2") (lit "knowledge_base") (lit "7")] |}.

Definition gst_evidence : list N :=
  lit "CONTEXT:" ++ [LF]
  ++ lit "[1] gst.pdf#chunk1" ++ [LF] ++ lit "GST is a tax." ++ [LF; LF]
  ++ lit "[2] knowledge_base#chunk7" ++ [LF].

Definition gst_transcript : list turn :=
  [system_turn;
   Turn (lit "assistant") gst_evidence;
   Turn (lit "user") (lit "What is GST?");
   Turn (lit "assistant") (lit "A tax on supply.")].

End Sample.

(** ** Further notions

    What the properties beyond those of the specification speak of. *)

(** The message a turn is rendered to; a turn whose role is none of the
    three has none. *)
Definition message_of (t : turn) : option lc_message :=
  if decide (role t = lit "system") then Some (SystemMessage (content t))
  else if decide (role t = lit "user") then Some (HumanMessage (content t))
  else if decide (role t = lit "assistant") then Some (AIMessage (content t))
  else None.

Definition renderable (t : turn) : bool :=
  match message_of t with
  | Some _ => true
  | None => false
  end.

(** One round of the loop of [to_langchain_messages]. *)
Definition render_step (msgs : list lc_message) (msg : turn) : list lc_message :=
  if decide (role msg = lit "system") then msgs ++ [SystemMessage (content msg)]
  else if decide (role msg = lit "user") then msgs ++ [HumanMessage (content msg)]
  else if decide (role msg = lit "assistant") then msgs ++ [AIMessage (content msg)]
  else msgs.

(** Events that are lines printed. *)
Definition is_print (ev : event) : bool :=
  match ev with
  | PrintOut _ => true
  | _ => false
  end.

(** The collaborators of [e] over another file system. *)
Definition with_fs (ok : bool) (fault : list N * option (list N)) (e : env) : env :=
  {| uuid4 := uuid4 e;
     retrieve := retrieve e;
     llm_invoke := llm_invoke e;
     fs_ok := ok;
     fs_fault := fault |}.

(** The request that asks [question] in the session [sid]. *)
Definition ask_in (sid : list N) (question : list N) : ChatQuery :=
  {| q_question := Some question; q_session_id := Some sid |}.

(** The state of a process that has just loaded the module over a
    sessions file holding [d], when the load gave a dict of transcripts. *)
Definition start (d : option (list N)) : option state :=
  match load_CONVERSATIONS d with
  | Sessions c => Some {| CONVERSATIONS := c; disk := d; log := [] |}
  | Untyped _ => None
  | DecodeError => None
  end.

(** Dicts all of whose transcripts render without loss, hold at most
    [1 + 3 * k] turns, hold at least two turns. *)
Definition store_renderable (c : gmap (list N) (list turn)) : Prop :=
  forall sid h, c !! sid = Some h -> forallb renderable h = true.

Definition store_bounded (k : nat) (c : gmap (list N) (list turn)) : Prop :=
  forall sid h, c !! sid = Some h -> (length h <= 1 + 3 * k)%nat.

Definition store_asked (c : gmap (list N) (list turn)) : Prop :=
  forall sid h, c !! sid = Some h -> (2 <= length h)%nat.

(** The response of [GET /]. *)
Record HTMLResponse : Type :=
  { h_content : list N; h_status_code : Z }.

(** The handler of [GET /]. [index] is what the file [static/index.html]
    holds, [None] when it does not exist; the result is [None] when
    reading the file raises [UnicodeDecodeError]. *)
Definition read_root (index : option (list N)) : option HTMLResponse :=
  match index with
  | None =>
      Some {| h_content := lit "<h1>GenTaxAI</h1><p>static/index.html not found.</p>";
              h_status_code := 200 |}
  | Some bytes =>
      match utf8_decode bytes with
      | Some text =>
          Some {| h_content := universal_newlines text; h_status_code := 200 |}
      | None => None
      end
  end.

(** A question in another session than that of [Sample.ask_gst]. *)
Definition ask_tds : ChatQuery :=
  ask_in (lit "u-2") (lit "What is TDS?").

(** ** The specification's words on trimming and on the evidence block

    Written from the specification, without the string functions of the
    code, for the code to be compared with. *)

(** [t] is [raw] trimmed of surrounding whitespace: [raw] is [t] between
    two runs of whitespace, and [t] neither starts nor ends with
    whitespace. *)
Definition trimmed_of (raw t : list N) : Prop :=
  (exists p p' : list N,
     raw = p ++ t ++ p'
     /\ forallb isspace p = true /\ forallb isspace p' = true)
  /\ (forall c, head t = Some c -> isspace c = false)
  /\ (forall c, last t = Some c -> isspace c = false).

(** The text of a snippet as the retriever gave it, the empty string when
    it gave none. *)
Definition spec_raw_text (h : gmap (list N) pyval) : list N :=
  match h !! lit "text" with
  | Some v => py_str v
  | None => []
  end.

(** The tag of the snippet at 1-based position [i]. *)
Definition spec_tag (i : nat) (h : gmap (list N) pyval) : list N :=
  lit "[" ++ str_of_int (Z.of_nat i) ++ lit "] " ++ spec_source h
  ++ lit "#chunk" ++ spec_chunk_id i h.

(** Formatted snippets, each but the first after a blank line. *)
Definition blank_line_separated (snippets : list (list N)) : list N :=
  match snippets with
  | [] => []
  | first :: others => first ++ concat (map (fun x => [LF; LF] ++ x) others)
  end.

(** ** A dict that cannot be written *)

(** An ASCII literal between double quotes. *)
Definition quoted (s : string) : list N := [34] ++ lit s ++ [34].

(** A dict holding a lone surrogate, a sessions file that loads to it, and
    what an attempt to save it leaves and prints: the codec refuses the
    chunk that holds the surrogate, the chunks written before it stay in
    the file. *)
Definition lone_surrogate_sessions : gmap (list N) (list turn) :=
  {[ lit "s" := [Turn (lit "user") [55296]] ]}.

Definition escaped_surrogate_file : list N :=
  lit "{" ++ quoted "s" ++ lit ": [{" ++ quoted "role" ++ lit ": " ++ quoted "user"
  ++ lit ", " ++ quoted "content" ++ lit ": " ++ quoted "\ud800" ++ lit "}]}".

Definition truncated_file : list N :=
  lit "{" ++ [LF]
  ++ lit "  " ++ quoted "s" ++ lit ": [" ++ [LF]
  ++ lit "    {" ++ [LF]
  ++ lit "      " ++ quoted "role" ++ lit ": " ++ quoted "user" ++ lit "," ++ [LF]
  ++ lit "      " ++ quoted "content" ++ lit ": ".

Definition env_surrogate : env :=
  with_fs true
    (lit "'utf-8' codec can't encode character '\ud800' in position 1: surrogates not allowed",
     Some truncated_file)
    Sample.env_up.


(** * Properties *)

(** ** Trimming *)

Lemma lstrip_all_space (s : list N) :
  forallb isspace s = true -> lstrip s = [].
Proof.
  induction s as [|c s IH]; intros H; [reflexivity|].
  cbn in H. apply andb_prop in H as [Hc Hs].
  cbn [lstrip]. rewrite Hc. auto.
Qed.

Lemma lstrip_nil_inv (s : list N) :
  lstrip s = [] -> forallb isspace s = true.
Proof.
  induction s as [|c s IH]; intros H; [reflexivity|].
  cbn [lstrip] in H. cbn [forallb].
  destruct (isspace c) eqn:Hc; [|discriminate].
  cbn. auto.
Qed.

Lemma lstrip_head (s : list N) c r :
  lstrip s = c :: r -> isspace c = false.
Proof.
  induction s as [|a s IH]; intros H; [discriminate|].
  cbn [lstrip] in H. destruct (isspace a) eqn:Ha; [auto|].
  congruence.
Qed.

Lemma forallb_rev {A} (f : A -> bool) (l : list A) :
  forallb f (rev l) = forallb f l.
Proof.
  induction l as [|a l IH]; [reflexivity|].
  cbn [rev forallb]. rewrite forallb_app, IH. cbn. 
  destruct (f a), (forallb f l); reflexivity.
Qed.

Lemma strip_nil_iff (s : list N) :
  strip s = [] <-> forallb isspace s = true.
Proof.
  unfold strip, rstrip. split.
  - intros H. apply (f_equal (@rev N)) in H. rewrite rev_involutive in H.
    cbn in H. apply lstrip_nil_inv in H. rewrite forallb_rev in H.
    destruct (lstrip s) as [|c r] eqn:E.
    + now apply lstrip_nil_inv.
    + apply lstrip_head in E. cbn in H. rewrite E in H. discriminate.
  - intros H. rewrite (lstrip_all_space _ H). reflexivity.
Qed.

Lemma truthy_false_iff (s : list N) : truthy s = false <-> s = [].
Proof. destruct s; cbn; split; congruence. Qed.

Lemma blank_question (query : ChatQuery) :
  is_blank (q_question query) = true <-> question_of query = [].
Proof.
  unfold question_of, is_blank.
  destruct (q_question query) as [raw|]; cbn [default].
  - symmetry. apply strip_nil_iff.
  - split; reflexivity.
Qed.

(** A complete description of [strip]. *)
Lemma lstrip_split (s : list N) :
  exists p, s = p ++ lstrip s /\ forallb isspace p = true.
Proof.
  induction s as [|c s [p [E Hp]]].
  - exists []. split; reflexivity.
  - cbn [lstrip]. destruct (isspace c) eqn:Hc.
    + exists (c :: p). split; [cbn; congruence|]. cbn. now rewrite Hc.
    + exists []. split; reflexivity.
Qed.

Lemma last_rev_head {A} (l : list A) : last (rev l) = head l.
Proof. destruct l as [|a l]; [reflexivity|]. cbn [rev]. apply last_snoc. Qed.

Lemma strip_spec (s : list N) :
  exists p p',
    s = p ++ strip s ++ p'
    /\ forallb isspace p = true /\ forallb isspace p' = true
    /\ (forall c, head (strip s) = Some c -> isspace c = false)
    /\ (forall c, last (strip s) = Some c -> isspace c = false).
Proof.
  destruct (lstrip_split s) as [p [E Hp]].
  destruct (lstrip_split (rev (lstrip s))) as [p' [E' Hp']].
  fold (rstrip (lstrip s)) in *.
  assert (Hl : lstrip s = strip s ++ rev p').
  { unfold strip, rstrip. rewrite <- rev_app_distr, <- E'. now rewrite rev_involutive. }
  assert (Hlast : forall c, last (strip s) = Some c -> isspace c = false).
  { intros c Hc. unfold strip, rstrip in Hc. rewrite last_rev_head in Hc.
    destruct (lstrip (rev (lstrip s))) as [|a r] eqn:Ea; [discriminate|].
    injection Hc as ->. eapply lstrip_head, Ea. }
  exists p, (rev p'). repeat split.
  - now rewrite <- Hl.
  - exact Hp.
  - now rewrite forallb_rev.
  - intros c Hc. destruct (strip s) as [|a r] eqn:Ea; [discriminate|].
    injection Hc as ->. cbn in Hl. eapply lstrip_head, Hl.
  - exact Hlast.
Qed.

Lemma format_hit_spec (ct : list (list N)) (cp : list citation) (k : nat) (h : gmap (list N) pyval) :
  format_hit (ct, cp) (Z.of_nat k, h) =
  (ct ++ [spec_snippet k h], cp ++ [spec_citation k h]).
Proof.
  unfold format_hit, spec_snippet, spec_citation, spec_source, spec_chunk_id, spec_text.
  destruct (h !! lit "source"), (h !! lit "chunk_id"), (h !! lit "text");
    cbn [default]; rewrite <- ?app_assoc; reflexivity.
Qed.

Lemma format_hits_from (hits : list (gmap (list N) pyval)) (k : nat) (ct : list (list N)) (cp : list citation) :
  foldl format_hit (ct, cp) (enumerate (Z.of_nat (S k)) hits) =
  (ct ++ imap (fun i h => spec_snippet (S (k + i)) h) hits,
   cp ++ imap (fun i h => spec_citation (S (k + i)) h) hits).
Proof.
  revert k ct cp. induction hits as [|h hits IH]; intros k ct cp.
  - cbn. now rewrite !app_nil_r.
  - cbn [enumerate foldl imap]. rewrite format_hit_spec.
    replace (Z.of_nat (S k) + 1)%Z with (Z.of_nat (S (S k))) by lia.
    rewrite IH. rewrite <- !app_assoc. cbn [app].
    rewrite Nat.add_0_r.
    f_equal; do 2 f_equal; apply imap_ext; intros i x _; unfold compose;
      now replace (S k + i)%nat with (k + S i)%nat by lia.
Qed.

Lemma format_hits_spec (hits : list (gmap (list N) pyval)) :
  foldl format_hit ([], []) (enumerate 1 hits) =
  (imap (fun i h => spec_snippet (S i) h) hits,
   imap (fun i h => spec_citation (S i) h) hits).
Proof. exact (format_hits_from hits 0 [] []). Qed.

Lemma chat_endpoint_blank (e : env) (query : ChatQuery) (s : state) :
  question_of query = [] ->
  chat_endpoint e query s = (Raise (HTTPException 400 (lit "Empty question")), s).
Proof.
  intros H. unfold chat_endpoint. fold (question_of query). rewrite H. reflexivity.
Qed.

Lemma save_sessions_run (e : env) (s : state) :
  save_sessions e s =
  (Ok tt,
   {| CONVERSATIONS := CONVERSATIONS s;
      disk := match written_bytes e (CONVERSATIONS s) with
              | Some bytes => Some bytes
              | None => snd (fs_fault e)
              end;
      log := log s ++ WriteFile (saved_text (CONVERSATIONS s))
             :: (if write_succeeds e (CONVERSATIONS s) then []
                 else [PrintOut [lit "Error saving sessions:"; fst (fs_fault e)]]) |}).
Proof.
  unfold save_sessions, write_succeeds, bind, emit, with_disk.
  cbn [CONVERSATIONS disk log].
  destruct (written_bytes e (CONVERSATIONS s)); cbn [CONVERSATIONS disk log].
  - reflexivity.
  - rewrite <- app_assoc. reflexivity.
Qed.

Lemma chat_endpoint_exchange (e : env) (query : ChatQuery) (s : state) :
  question_of query <> [] ->
  chat_endpoint e query s =
  match llm_invoke e (to_langchain_messages (prompt_transcript e query s)) with
  | Raises msg =>
      (Raise (HTTPException 500 (lit "LLM error: " ++ msg)), state_at_invoke e query s)
  | Returns answer =>
      (Ok {| r_answer := answer;
             r_session_id := Some (session_of e query);
             r_citations :=
               Some (imap (fun i h => spec_citation (S i) h) (kb_hits_of e query)) |},
       state_after_answer e query s answer)
  end.
Proof.
  intros Hq.
  unfold chat_endpoint. fold (question_of query). fold (session_of e query).
  destruct (truthy (question_of query)) eqn:Ht;
    [|apply truthy_false_iff in Ht; contradiction].
  cbn [negb].
  set (sid := session_of e query). set (q := question_of query).
  assert (Hfmt : forall hits, foldl format_hit ([], []) (enumerate 1 hits) = 
     (imap (fun i h => spec_snippet (S i) h) hits,
      imap (fun i h => spec_citation (S i) h) hits)) by apply format_hits_spec.
  unfold state_after_answer, state_at_invoke, prompt_transcript, retrieval_events,
    kb_hits_of, transcript_before.
  fold sid q.
  destruct (CONVERSATIONS s !! sid) as [h0|] eqn:Hs;
  destruct (retrieve e q 5) as [[[|h hits]|]|msg] eqn:Hr;
  cbn [default from_option id evidence_turns app].
  all: unfold bind, contains_session, call_retrieve, call_invoke, emit, ret, raise,
         append_turn, get_session, set_session, with_CONVERSATIONS, bind.
  all: cbn [CONVERSATIONS disk log fst snd negb].
  all: rewrite Hs, Hr.
  all: first [ rewrite bool_decide_true by (eexists; reflexivity)
             | rewrite bool_decide_false by (intros [? ?]; discriminate) ].
  all: repeat first
         [ progress cbn [CONVERSATIONS disk log fst snd negb]
         | rewrite Hs
         | rewrite Hfmt
         | rewrite lookup_insert_eq
         | rewrite insert_insert_eq ].
  all: unfold spec_evidence_block; rewrite <- ?app_assoc; cbn [app].
  all: match goal with
       | |- context [llm_invoke ?e1 ?m] => destruct (llm_invoke e1 m) as [answer|err]
       end.
  all: repeat first
         [ progress cbn [CONVERSATIONS disk log fst snd negb]
         | rewrite save_sessions_run
         | rewrite lookup_insert_eq
         | rewrite insert_insert_eq ].
  all: rewrite <- ?app_assoc; cbn [app]; rewrite <- ?app_assoc; cbn [app].
  all: reflexivity.
Qed.

Lemma evidence_not_system (hits : list (gmap (list N) pyval)) :
  forallb (fun t => negb (is_system t)) (evidence_turns hits) = true.
Proof. destruct hits; reflexivity. Qed.

Lemma chat_endpoint_CONVERSATIONS (e : env) (query : ChatQuery) (s : state) :
  question_of query <> [] ->
  CONVERSATIONS (snd (chat_endpoint e query s)) =
  <[session_of e query :=
      transcript_before s (session_of e query) ++ appended e query s]>
    (CONVERSATIONS s).
Proof.
  intros Hq. rewrite chat_endpoint_exchange by assumption. unfold appended.
  destruct (llm_invoke e _) as [answer|msg]; cbn [snd];
    unfold state_after_answer, state_at_invoke, prompt_transcript;
    cbn [CONVERSATIONS]; rewrite <- ?app_assoc; reflexivity.
Qed.

Lemma appended_not_system (e : env) (query : ChatQuery) (s : state) :
  forallb (fun t => negb (is_system t)) (appended e query s) = true.
Proof.
  unfold appended. rewrite forallb_app, evidence_not_system. cbn [andb forallb].
  destruct (llm_invoke e _); reflexivity.
Qed.

(** ** The preamble invariant *)

Lemma chat_endpoint_grows (e : env) (query : ChatQuery) (s : state)
      (sid : list N) (h : list turn) :
  CONVERSATIONS s !! sid = Some h ->
  exists more,
    CONVERSATIONS (snd (chat_endpoint e query s)) !! sid = Some (h ++ more)
    /\ forallb not_system more = true.
Proof.
  intros Hs.
  destruct (decide (question_of query = [])) as [Hq|Hq].
  - rewrite chat_endpoint_blank by assumption. exists []. now rewrite app_nil_r.
  - rewrite chat_endpoint_CONVERSATIONS by assumption.
    destruct (decide (session_of e query = sid)) as [<-|Hne].
    + rewrite lookup_insert_eq. unfold transcript_before. rewrite Hs.
      eexists. split; [reflexivity|]. apply appended_not_system.
    + rewrite lookup_insert_ne by assumption. exists []. now rewrite app_nil_r.
Qed.

Lemma well_started_app (h more : list turn) :
  well_started h -> forallb not_system more = true -> well_started (h ++ more).
Proof.
  intros [rest [-> Hr]] Hm. exists (rest ++ more). split; [reflexivity|].
  now rewrite forallb_app, Hr, Hm.
Qed.

Lemma chat_endpoint_inv (e : env) (query : ChatQuery) (s : state) :
  store_inv (CONVERSATIONS s) ->
  store_inv (CONVERSATIONS (snd (chat_endpoint e query s))).
Proof.
  intros Hinv sid h.
  destruct (decide (question_of query = [])) as [Hq|Hq].
  - rewrite chat_endpoint_blank by assumption. apply Hinv.
  - rewrite chat_endpoint_CONVERSATIONS by assumption.
    destruct (decide (session_of e query = sid)) as [<-|Hne].
    + rewrite lookup_insert_eq. intros [= <-].
      apply well_started_app; [|apply appended_not_system].
      unfold transcript_before.
      destruct (CONVERSATIONS s !! session_of e query) as [h0|] eqn:E; cbn.
      * eapply Hinv, E.
      * exists []. split; reflexivity.
    + rewrite lookup_insert_ne by assumption. apply Hinv.
Qed.

Lemma run_inv (steps : list (env * ChatQuery)) (s : state) :
  store_inv (CONVERSATIONS s) -> store_inv (CONVERSATIONS (run steps s)).
Proof.
  revert s. induction steps as [|[e query] steps IH]; intros s Hinv; [exact Hinv|].
  cbn. apply IH, chat_endpoint_inv, Hinv.
Qed.

Lemma system_turns_not_system (l : list turn) :
  forallb not_system l = true -> system_turns l = [].
Proof.
  induction l as [|t l IH]; [reflexivity|]. cbn [forallb]. intros H.
  apply andb_prop in H as [Ht Hl]. unfold system_turns in *. cbn [List.filter].
  unfold not_system in Ht. apply negb_true_iff in Ht. rewrite Ht. auto.
Qed.

Lemma chat_endpoint_Ok_inv (e : env) (query : ChatQuery) (s s' : state) (resp : ChatResponse) :
  chat_endpoint e query s = (Ok resp, s') ->
  question_of query <> []
  /\ llm_invoke e (to_langchain_messages (prompt_transcript e query s))
     = Returns (r_answer resp)
  /\ resp = {| r_answer := r_answer resp;
               r_session_id := Some (session_of e query);
               r_citations :=
                 Some (imap (fun i h => spec_citation (S i) h) (kb_hits_of e query)) |}
  /\ s' = state_after_answer e query s (r_answer resp).
Proof.
  intros H.
  destruct (decide (question_of query = [])) as [Hq|Hq].
  - rewrite chat_endpoint_blank in H by assumption. discriminate.
  - rewrite chat_endpoint_exchange in H by assumption.
    destruct (llm_invoke e _) as [answer|msg]; [|discriminate].
    injection H as <- <-. repeat split; assumption || reflexivity.
Qed.

(** ** String literals read back *)

Ltac enum_below c n :=
  lazymatch n with
  | O => exfalso; lia
  | S ?m =>
      let k := eval vm_compute in (N.of_nat m) in
      destruct (N.eq_dec c k) as [->|?]; [|enum_below c m]
  end.

Lemma scan_escape_char (c : N) (r : list N) :
  scan_string (escape_char c ++ r) = cons_fst c (scan_string r).
Proof.
  destruct (N.ltb_spec c 32) as [Hlt|Hge].
  - enum_below c 32%nat; reflexivity.
  - unfold escape_char.
    destruct (N.eqb_spec c 92) as [->|H92]; [reflexivity|].
    destruct (N.eqb_spec c 34) as [->|H34]; [reflexivity|].
    destruct (N.eqb_spec c 8); [lia|]. destruct (N.eqb_spec c 12); [lia|].
    destruct (N.eqb_spec c 10); [lia|]. destruct (N.eqb_spec c 13); [lia|].
    destruct (N.eqb_spec c 9); [lia|].
    destruct (N.ltb_spec c 32); [lia|].
    cbn [app scan_string].
    destruct (N.eqb_spec c 34); [contradiction|].
    destruct (N.eqb_spec c 92); [contradiction|].
    destruct (N.ltb_spec c 32); [lia|]. reflexivity.
Qed.

Lemma scan_string_escaped (s rest : list N) :
  scan_string (flat_map escape_char s ++ 34 :: rest) = Some (s, rest).
Proof.
  induction s as [|c s IH]; [reflexivity|].
  cbn [flat_map]. rewrite <- app_assoc, scan_escape_char, IH. reflexivity.
Qed.

Lemma scan_basestring (s rest : list N) :
  exists body,
    encode_basestring s ++ rest = 34 :: body
    /\ scan_string body = Some (s, rest).
Proof.
  exists (flat_map escape_char s ++ 34 :: rest). split.
  - unfold encode_basestring. cbn [app]. now rewrite <- app_assoc.
  - apply scan_string_escaped.
Qed.

(** ** Whitespace *)

Lemma skip_ws_spaces (n : nat) (s : list N) :
  skip_ws (repeat 32 n ++ s) = skip_ws s.
Proof. induction n as [|n IH]; [reflexivity|]. exact IH. Qed.

Lemma skip_ws_newline_indent (level : nat) (s : list N) :
  skip_ws (newline_indent level ++ s) = skip_ws s.
Proof. unfold newline_indent. cbn [app skip_ws]. apply skip_ws_spaces. Qed.

Lemma skip_ws_stop (c : N) (s : list N) :
  is_json_ws c = false -> skip_ws (c :: s) = c :: s.
Proof. intros H. cbn [skip_ws]. now rewrite H. Qed.

(** ** Containers read back *)

Lemma skip_ws_visible (s r : list N) :
  starts_visible s -> skip_ws (s ++ r) = s ++ r.
Proof. intros (c & body & -> & Hc). cbn [app]. now apply skip_ws_stop. Qed.

Lemma basestring_visible (k : list N) (s : list N) :
  starts_visible (encode_basestring k ++ s).
Proof. exists 34, (flat_map escape_char k ++ [34] ++ s). split; [|reflexivity].
  unfold encode_basestring. cbn [app]. now rewrite <- app_assoc. Qed.

Section Joined.
Variable pv : list N -> option (json * list N).
Variable enc : json -> list N.
Variables lvl lvl' : nat.

Lemma parse_members_joined (members : list (list N * json)) (n : nat) (rest : list N) :
  members <> [] ->
  (length members <= n)%nat ->
  (forall kv, In kv members ->
     starts_visible (enc (snd kv))
     /\ forall r, pv (enc (snd kv) ++ r) = Some (snd kv, r)) ->
  parse_members pv n
    (join (lit "," ++ newline_indent lvl) (map (member_text enc) members)
     ++ newline_indent lvl' ++ 125 :: rest)
  = Some (members, rest).
Proof.
  revert n. induction members as [|[k v] ms IH]; intros n Hne Hlen Hpv; [contradiction|].
  destruct n as [|n]; [cbn in Hlen; lia|].
  destruct (Hpv (k, v) (or_introl eq_refl)) as [Hvis Hv]. cbn [fst snd] in Hvis, Hv.
  assert (Hstep : forall tail,
    parse_members pv (S n) (member_text enc (k, v) ++ tail) =
    match skip_ws tail with
    | c :: r3 =>
        if c =? 125 then Some ([(k, v)], r3)
        else if c =? 44 then cons_fst (k, v) (parse_members pv n (skip_ws r3))
        else None
    | [] => None
    end).
  { intros tail. unfold member_text. cbn [fst snd].
    rewrite <- !app_assoc.
    destruct (scan_basestring k (lit ": " ++ enc v ++ tail)) as (body & -> & Hscan).
    cbn [parse_members]. rewrite N.eqb_refl, Hscan.
    change (lit ": " ++ enc v ++ tail) with (58 :: 32 :: (enc v ++ tail)).
    rewrite (skip_ws_stop 58) by reflexivity.
    change (58 =? 58) with true. cbn beta iota.
    change (skip_ws (32 :: enc v ++ tail)) with (skip_ws (enc v ++ tail)).
    rewrite skip_ws_visible by assumption. rewrite Hv. reflexivity. }
  destruct ms as [|kv2 ms'].
  - cbn [map join]. rewrite Hstep, skip_ws_newline_indent. reflexivity.
  - change (join (lit "," ++ newline_indent lvl) (map (member_text enc) ((k, v) :: kv2 :: ms')))
      with (member_text enc (k, v) ++ (lit "," ++ newline_indent lvl)
            ++ join (lit "," ++ newline_indent lvl) (map (member_text enc) (kv2 :: ms'))).
    rewrite <- !app_assoc. rewrite Hstep.
    change (lit "," ++ newline_indent lvl ++ ?x) with (44 :: (newline_indent lvl ++ x)).
    cbn [app]. change (lit ",") with [44]. cbn [app].
    rewrite skip_ws_stop by reflexivity.
    change (44 =? 125) with false. change (44 =? 44) with true. cbn iota.
    rewrite skip_ws_newline_indent.
    assert (Hvis2 : starts_visible
              (join (lit "," ++ newline_indent lvl) (map (member_text enc) (kv2 :: ms')))).
    { destruct ms'; cbn [map join]; unfold member_text at 1;
        rewrite <- ?app_assoc; apply basestring_visible. }
    rewrite skip_ws_visible by assumption.
    rewrite IH; [reflexivity|discriminate|cbn in *; lia|].
    intros kv Hin. apply Hpv. now right.
Qed.

Lemma parse_items_joined (items : list json) (n : nat) (rest : list N) :
  items <> [] ->
  (length items <= n)%nat ->
  (forall v, In v items ->
     starts_visible (enc v) /\ forall r, pv (enc v ++ r) = Some (v, r)) ->
  parse_items pv n
    (join (lit "," ++ newline_indent lvl) (map enc items)
     ++ newline_indent lvl' ++ 93 :: rest)
  = Some (items, rest).
Proof.
  revert n. induction items as [|v vs IH]; intros n Hne Hlen Hpv; [contradiction|].
  destruct n as [|n]; [cbn in Hlen; lia|].
  destruct (Hpv v (or_introl eq_refl)) as [Hvis Hv].
  destruct vs as [|v2 vs'].
  - cbn [map join parse_items]. rewrite Hv, skip_ws_newline_indent.
    rewrite skip_ws_stop by reflexivity. reflexivity.
  - change (join (lit "," ++ newline_indent lvl) (map enc (v :: v2 :: vs')))
      with (enc v ++ (lit "," ++ newline_indent lvl)
            ++ join (lit "," ++ newline_indent lvl) (map enc (v2 :: vs'))).
    rewrite <- !app_assoc. cbn [parse_items]. rewrite Hv.
    change (lit ",") with [44]. cbn [app].
    rewrite skip_ws_stop by reflexivity.
    change (44 =? 93) with false. change (44 =? 44) with true. cbn iota.
    rewrite skip_ws_newline_indent.
    assert (Hvis2 : starts_visible
              (join (lit "," ++ newline_indent lvl) (map enc (v2 :: vs')))).
    { destruct (Hpv v2 (or_intror (or_introl eq_refl))) as [(c & body & E & Hc) _].
      destruct vs'; cbn [map join]; rewrite E; unfold starts_visible;
        do 2 eexists; (split; [cbn [app]; reflexivity|exact Hc]). }
    rewrite skip_ws_visible by assumption.
    rewrite IH; [reflexivity|discriminate|cbn in *; lia|].
    intros x Hin. apply Hpv. now right.
Qed.
End Joined.

Lemma parse_value_string (f lvl : nat) (x r : list N) :
  parse_value (S f) (encode lvl (JStr x) ++ r) = Some (JStr x, r).
Proof.
  cbn [encode]. destruct (scan_basestring x r) as (body & -> & Hscan).
  cbn [parse_value]. rewrite N.eqb_refl, Hscan. reflexivity.
Qed.

Lemma string_visible (lvl : nat) (x : list N) : starts_visible (encode lvl (JStr x)).
Proof.
  cbn [encode]. rewrite <- (app_nil_r (encode_basestring x)). apply basestring_visible.
Qed.

Lemma encode_object (lvl : nat) (m : list N * json) (ms : list (list N * json)) :
  encode lvl (JObj (m :: ms)) =
  123 :: newline_indent (S lvl)
  ++ join (lit "," ++ newline_indent (S lvl))
       (map (member_text (encode (S lvl))) (m :: ms))
  ++ newline_indent lvl ++ [125].
Proof. reflexivity. Qed.

Lemma encode_array (lvl : nat) (v : json) (vs : list json) :
  encode lvl (JArr (v :: vs)) =
  91 :: newline_indent (S lvl)
  ++ join (lit "," ++ newline_indent (S lvl)) (map (encode (S lvl)) (v :: vs))
  ++ newline_indent lvl ++ [93].
Proof. reflexivity. Qed.

Lemma parse_value_object (f lvl : nat) (members : list (list N * json)) (rest : list N) :
  members <> [] ->
  (length members <= f)%nat ->
  (forall kv, In kv members ->
     starts_visible (encode (S lvl) (snd kv))
     /\ forall r, parse_value f (encode (S lvl) (snd kv) ++ r) = Some (snd kv, r)) ->
  parse_value (S f) (encode lvl (JObj members) ++ rest) = Some (JObj members, rest).
Proof.
  intros Hne Hlen Hpv. destruct members as [|m ms]; [contradiction|].
  rewrite encode_object.
  pose proof (parse_members_joined (parse_value f) (encode (S lvl)) (S lvl) lvl
                (m :: ms) f rest Hne Hlen Hpv) as Hm.
  set (J := join _ _) in *.
  assert (HJ : exists body, J ++ newline_indent lvl ++ 125 :: rest = 34 :: body).
  { subst J. destruct m as [k v]. destruct ms; cbn [map join]; unfold member_text at 1;
      unfold encode_basestring; cbn [fst app]; eexists; reflexivity. }
  destruct HJ as [body HJ].
  cbn [app]. rewrite <- !app_assoc. cbn [app parse_value].
  change (123 =? 34) with false. change (123 =? 123) with true. cbn iota.
  rewrite skip_ws_newline_indent. rewrite HJ in *.
  rewrite skip_ws_stop by reflexivity.
  change (34 =? 125) with false. cbn iota. now rewrite Hm.
Qed.

Lemma parse_value_array (f lvl : nat) (items : list json) (rest : list N) :
  items <> [] ->
  (length items <= f)%nat ->
  (forall v, In v items ->
     (exists body, encode (S lvl) v = 123 :: body)
     /\ forall r, parse_value f (encode (S lvl) v ++ r) = Some (v, r)) ->
  parse_value (S f) (encode lvl (JArr items) ++ rest) = Some (JArr items, rest).
Proof.
  intros Hne Hlen Hpv. destruct items as [|v vs]; [contradiction|].
  rewrite encode_array.
  assert (Hpv' : forall x, In x (v :: vs) ->
            starts_visible (encode (S lvl) x)
            /\ forall r, parse_value f (encode (S lvl) x ++ r) = Some (x, r)).
  { intros x Hx. destruct (Hpv x Hx) as [[body E] Hp]. split; [|exact Hp].
    rewrite E. now exists 123, body. }
  pose proof (parse_items_joined (parse_value f) (encode (S lvl)) (S lvl) lvl
                (v :: vs) f rest Hne Hlen Hpv') as Hm.
  set (J := join _ _) in *.
  assert (HJ : exists body, J ++ newline_indent lvl ++ 93 :: rest = 123 :: body).
  { subst J. destruct (Hpv v (or_introl eq_refl)) as [[body E] _].
    destruct vs; cbn [map join]; rewrite E; cbn [app]; eexists; reflexivity. }
  destruct HJ as [body HJ].
  cbn [app]. rewrite <- !app_assoc. cbn [app parse_value].
  change (91 =? 34) with false. change (91 =? 123) with false.
  change (91 =? 91) with true. cbn iota.
  rewrite skip_ws_newline_indent. rewrite HJ in *.
  rewrite skip_ws_stop by reflexivity.
  change (123 =? 93) with false. cbn iota. now rewrite Hm.
Qed.

Lemma parse_value_empty_array (f lvl : nat) (rest : list N) :
  parse_value (S f) (encode lvl (JArr []) ++ rest) = Some (JArr [], rest).
Proof. reflexivity. Qed.

Lemma parse_value_empty_object (f lvl : nat) (rest : list N) :
  parse_value (S f) (encode lvl (JObj []) ++ rest) = Some (JObj [], rest).
Proof. reflexivity. Qed.

(** *** Turns, transcripts, the dict *)

Lemma parse_value_turn (f lvl : nat) (t : turn) (rest : list N) :
  (3 <= f)%nat ->
  parse_value f (encode lvl (json_of_turn t) ++ rest) = Some (json_of_turn t, rest).
Proof.
  intros Hf. destruct f as [|f]; [lia|].
  apply parse_value_object; [discriminate|cbn; lia|].
  intros kv Hin. destruct f as [|f]; [lia|].
  destruct Hin as [<-|[<-|[]]]; cbn [snd];
    (split; [apply string_visible|intros r; apply parse_value_string]).
Qed.

Lemma parse_value_transcript (f lvl : nat) (h : list turn) (rest : list N) :
  (4 <= f)%nat -> (length h < f)%nat ->
  parse_value f (encode lvl (json_of_transcript h) ++ rest)
  = Some (json_of_transcript h, rest).
Proof.
  intros Hf Hlen. destruct f as [|f]; [lia|]. unfold json_of_transcript.
  destruct h as [|t h]; [apply parse_value_empty_array|].
  apply parse_value_array; [discriminate|rewrite length_map; cbn in *; lia|].
  intros v Hin. apply in_map_iff in Hin as [t' [<- _]]. split.
  - eexists. reflexivity.
  - intros r. apply parse_value_turn. lia.
Qed.

Lemma transcript_visible (lvl : nat) (h : list turn) :
  starts_visible (encode lvl (json_of_transcript h)).
Proof. destruct h; eexists 91, _; split; reflexivity. Qed.

Lemma parse_value_entries (f lvl : nat) (l : list (list N * list turn)) (rest : list N) :
  (5 <= f)%nat -> (length l < f)%nat ->
  (forall kv, In kv l -> (S (length (snd kv)) < f)%nat) ->
  parse_value f (encode lvl (json_of_entries l) ++ rest)
  = Some (json_of_entries l, rest).
Proof.
  intros Hf Hlen Hh. destruct f as [|f]; [lia|]. unfold json_of_entries.
  destruct l as [|kv l]; [apply parse_value_empty_object|].
  apply parse_value_object; [discriminate|rewrite length_map; cbn in *; lia|].
  intros m Hin. apply in_map_iff in Hin as [kv' [<- Hin]]. cbn [snd]. split.
  - apply transcript_visible.
  - intros r. apply parse_value_transcript; [lia|]. specialize (Hh _ Hin). lia.
Qed.

(** ** Enough fuel *)

Lemma length_join_parts (sep : list N) (parts : list (list N)) :
  (forall p, In p parts -> (1 <= length p)%nat) ->
  (length parts <= length (join sep parts))%nat.
Proof.
  induction parts as [|p ps IH]; intros Hp; [cbn; lia|].
  pose proof (Hp p (or_introl eq_refl)).
  destruct ps as [|p2 ps']; [cbn; lia|].
  change (join sep (p :: p2 :: ps')) with (p ++ sep ++ join sep (p2 :: ps')).
  rewrite !length_app. cbn [length] in *.
  specialize (IH (fun x Hx => Hp x (or_intror Hx))). lia.
Qed.

Lemma length_join_part (sep : list N) (parts : list (list N)) (p : list N) :
  In p parts -> (length p <= length (join sep parts))%nat.
Proof.
  induction parts as [|a ps IH]; intros Hin; [contradiction|].
  destruct ps as [|p2 ps'].
  - destruct Hin as [->|[]]. cbn. lia.
  - change (join sep (a :: p2 :: ps')) with (a ++ sep ++ join sep (p2 :: ps')).
    rewrite !length_app. destruct Hin as [->|Hin]; [lia|].
    specialize (IH Hin). lia.
Qed.

Lemma length_encode_turn (lvl : nat) (t : turn) :
  (1 <= length (encode lvl (json_of_turn t)))%nat.
Proof. unfold json_of_turn. rewrite encode_object. cbn [length]. lia. Qed.

Lemma length_encode_transcript (lvl : nat) (h : list turn) :
  (length h + 2 <= length (encode lvl (json_of_transcript h)))%nat.
Proof.
  unfold json_of_transcript. destruct h as [|t h]; [cbn; lia|].
  change (map json_of_turn (t :: h)) with (json_of_turn t :: map json_of_turn h).
  rewrite encode_array. cbn [length]. rewrite !length_app.
  pose proof (length_join_parts (lit "," ++ newline_indent (S lvl))
    (map (encode (S lvl)) (json_of_turn t :: map json_of_turn h))) as Hj.
  rewrite !length_map in Hj. cbn [length] in *.
  assert (forall p, In p (map (encode (S lvl)) (json_of_turn t :: map json_of_turn h)) ->
            (1 <= length p)%nat) as Hp.
  { intros p Hin. apply in_map_iff in Hin as [v [<- Hv]].
    change (json_of_turn t :: map json_of_turn h) with (map json_of_turn (t :: h)) in Hv.
    apply in_map_iff in Hv as [t' [<- _]]. apply length_encode_turn. }
  specialize (Hj Hp). rewrite length_map in Hj. lia.
Qed.

Lemma length_encode_entries (lvl : nat) (l : list (list N * list turn)) :
  l <> [] ->
  (length l + 4 <= length (encode lvl (json_of_entries l)))%nat
  /\ forall kv, In kv l ->
       (length (snd kv) + 6 <= length (encode lvl (json_of_entries l)))%nat.
Proof.
  intros Hne. unfold json_of_entries. destruct l as [|kv0 l]; [contradiction|].
  set (ms := map _ (kv0 :: l)).
  assert (Hms : ms = (fst kv0, json_of_transcript (snd kv0))
                     :: map (fun kv => (fst kv, json_of_transcript (snd kv))) l)
    by reflexivity.
  rewrite Hms, encode_object, <- Hms.
  set (parts := map (member_text (encode (S lvl))) ms).
  cbn [length]. rewrite !length_app. unfold newline_indent at 1 3. cbn [length].
  assert (Hparts : forall kv, In kv (kv0 :: l) ->
            In (member_text (encode (S lvl)) (fst kv, json_of_transcript (snd kv))) parts).
  { intros kv Hin. subst parts ms. rewrite map_map. apply in_map_iff. now exists kv. }
  assert (Hlen : forall kv,
            (length (snd kv) + 4
             <= length (member_text (encode (S lvl)) (fst kv, json_of_transcript (snd kv))))%nat).
  { intros kv. unfold member_text. cbn [fst snd]. rewrite !length_app.
    pose proof (length_encode_transcript (S lvl) (snd kv)).
    unfold encode_basestring. cbn [length app]. rewrite length_app. cbn [length]. 
    change (length (lit ": ")) with 2%nat. lia. }
  split.
  - pose proof (length_join_parts (lit "," ++ newline_indent (S lvl)) parts) as Hj.
    assert (length parts = length (kv0 :: l)) as Hpl
      by (subst parts ms; now rewrite !length_map).
    rewrite Hpl in Hj.
    assert (forall p, In p parts -> (1 <= length p)%nat) as Hp.
    { intros p Hin. subst parts ms. rewrite map_map in Hin.
      apply in_map_iff in Hin as [kv [<- _]]. specialize (Hlen kv). cbn [fst snd] in *. lia. }
    specialize (Hj Hp). cbn [length] in Hj. lia.
  - intros kv Hin. specialize (Hparts kv Hin). specialize (Hlen kv).
    pose proof (length_join_part (lit "," ++ newline_indent (S lvl)) parts _ Hparts). lia.
Qed.

(** ** What was written is read back *)

Lemma json_loads_entries (l : list (list N * list turn)) :
  json_loads (json_dumps (json_of_entries l)) = Some (json_of_entries l).
Proof.
  unfold json_loads, json_dumps.
  destruct l as [|kv0 l]; [reflexivity|].
  set (entries := kv0 :: l).
  destruct (length_encode_entries 0 entries) as [Hn Hh]; [discriminate|].
  assert (Hvis : skip_ws (encode 0 (json_of_entries entries))
                 = encode 0 (json_of_entries entries)).
  { unfold json_of_entries, entries. cbn [map]. rewrite encode_object.
    now rewrite skip_ws_stop. }
  rewrite Hvis.
  rewrite <- (app_nil_r (encode 0 (json_of_entries entries))) at 2.
  rewrite parse_value_entries; [reflexivity|lia|lia|].
  intros kv Hin. specialize (Hh kv Hin). lia.
Qed.

(** ** The typed reading of what was written *)

Lemma dict_of_members_from {A} (members : list (list N * A)) (d : gmap (list N) A) :
  foldl (fun d kv => <[fst kv := snd kv]> d) d members
  = list_to_map (reverse members) ∪ d.
Proof.
  revert d. induction members as [|[k v] ms IH]; intros d.
  - cbn. now rewrite (left_id_L ∅ (∪)).
  - cbn [foldl fst snd]. rewrite IH, reverse_cons, list_to_map_app.
    cbn [list_to_map]. rewrite <- (assoc_L (∪)).
    rewrite list_to_map_cons, list_to_map_nil.
    now rewrite <- insert_union_l, (left_id_L ∅ (∪)).
Qed.

Lemma dict_of_members_nodup {A} (members : list (list N * A)) :
  NoDup (members.*1) ->
  dict_of_members members = list_to_map members.
Proof.
  intros Hnd. unfold dict_of_members. rewrite dict_of_members_from.
  rewrite (right_id_L ∅ (∪)). apply list_to_map_proper; [|apply reverse_Permutation].
  rewrite fmap_reverse, reverse_Permutation. exact Hnd.
Qed.

Lemma turn_of_json_of_turn (t : turn) : turn_of_json (json_of_turn t) = Some t.
Proof. destruct t as [r c]. reflexivity. Qed.

Lemma transcript_of_json_of_transcript (h : list turn) :
  transcript_of_json (json_of_transcript h) = Some h.
Proof.
  unfold json_of_transcript, transcript_of_json.
  induction h as [|t h IH]; [reflexivity|].
  cbn [map mapM]. rewrite turn_of_json_of_turn, IH. reflexivity.
Qed.

Lemma sessions_of_json_of_sessions (c : gmap (list N) (list turn)) :
  sessions_of_json (json_of_entries (map_to_list c)) = Some c.
Proof.
  unfold sessions_of_json, json_of_entries.
  assert (Hd : dict_of_members
                 (map (fun kv => (fst kv, json_of_transcript (snd kv))) (map_to_list c))
               = json_of_transcript <$> c).
  { rewrite dict_of_members_nodup.
    - change (map ?f ?l) with (prod_map id json_of_transcript <$> l).
      rewrite list_to_map_fmap. now rewrite list_to_map_to_list.
    - change (map ?f ?l) with (f <$> l). rewrite <- list_fmap_compose.
      apply NoDup_fst_map_to_list. }
  rewrite Hd.
  rewrite bool_decide_true.
  - f_equal. apply map_eq. intros k. rewrite lookup_omap, lookup_fmap.
    destruct (c !! k) as [h|]; [|reflexivity]. cbn. apply transcript_of_json_of_transcript.
  - intros k x Hx. rewrite lookup_fmap in Hx.
    destruct (c !! k) as [h|]; [|discriminate]. injection Hx as <-.
    rewrite transcript_of_json_of_transcript. now eexists.
Qed.

(** ** The characters of the written text *)

Section Emitted.
Variable p : N -> bool.
Hypothesis p_printable : forall x, 32 <= x <= 126 -> p x = true.
Hypothesis p_newline : p 10 = true.

Lemma raw_ok_printable (s : list N) :
  forallb (fun c => (32 <=? c) && (c <=? 126)) s = true -> raw_ok p s = true.
Proof.
  induction s as [|c s IH]; [reflexivity|]. cbn [forallb raw_ok]. intros H.
  apply andb_prop in H as [Hc Hs]. apply andb_prop in Hc as [H1 H2].
  apply N.leb_le in H1, H2. rewrite p_printable by lia. rewrite orb_true_r.
  now apply IH.
Qed.

Lemma forallb_escape_char (c : N) :
  (c <? 32) || p c = true -> forallb p (escape_char c) = true.
Proof.
  intros Hc. destruct (N.ltb_spec c 32) as [Hlt|Hge].
  - clear Hc. enum_below c 32%nat;
      cbv [escape_char N.eqb Pos.eqb N.ltb N.compare Pos.compare Pos.compare_cont
           hexdigit N.div N.modulo N.div_eucl N.pos_div_eucl N.leb N.add Pos.add
           N.succ_double N.double N.sub Pos.sub Pos.pred_double Pos.succ
           Pos.sub_mask Pos.double_mask Pos.succ_double_mask Pos.double_pred_mask
           fst snd forallb];
      rewrite ?p_printable by lia; reflexivity.
  - cbn [orb] in Hc. unfold escape_char.
    repeat match goal with
           | |- context [N.eqb c ?k] => destruct (N.eqb_spec c k) as [->|?]
           end;
      try (cbn [forallb]; rewrite ?p_printable by lia; reflexivity).
    destruct (N.ltb_spec c 32); [lia|]. cbn [forallb]. now rewrite Hc.
Qed.

Lemma forallb_basestring (s : list N) :
  raw_ok p s = true -> forallb p (encode_basestring s) = true.
Proof.
  intros Hs. unfold encode_basestring. rewrite !forallb_app. cbn [forallb].
  rewrite (p_printable 34) by lia. cbn [andb]. rewrite andb_true_r.
  induction s as [|c s IH]; [reflexivity|].
  unfold raw_ok in *; cbn [forallb] in Hs. apply andb_prop in Hs as [Hc Hs].
  cbn [flat_map]. rewrite forallb_app, forallb_escape_char by assumption.
  now apply IH.
Qed.

Lemma forallb_newline_indent (lvl : nat) : forallb p (newline_indent lvl) = true.
Proof.
  unfold newline_indent, LF. cbn [forallb]. rewrite p_newline. cbn [andb].
  induction (2 * lvl)%nat as [|n IH]; [reflexivity|].
  cbn [repeat forallb]. rewrite (p_printable 32) by lia. exact IH.
Qed.

Lemma forallb_join (sep : list N) (parts : list (list N)) :
  forallb p sep = true ->
  (forall x, In x parts -> forallb p x = true) ->
  forallb p (join sep parts) = true.
Proof.
  intros Hsep. induction parts as [|a ps IH]; intros Hp; [reflexivity|].
  destruct ps as [|b ps'].
  - apply Hp. now left.
  - change (join sep (a :: b :: ps')) with (a ++ sep ++ join sep (b :: ps')).
    rewrite !forallb_app, Hsep, (Hp a) by now left. cbn [andb].
    apply IH. intros x Hx. apply Hp. now right.
Qed.

Lemma forallb_separator (lvl : nat) :
  forallb p (lit "," ++ newline_indent lvl) = true.
Proof.
  rewrite forallb_app, forallb_newline_indent. cbn. now rewrite p_printable by lia.
Qed.

Lemma forallb_encode_turn (lvl : nat) (t : turn) :
  raw_ok p (role t) = true -> raw_ok p (content t) = true ->
  forallb p (encode lvl (json_of_turn t)) = true.
Proof.
  intros Hr Hc. unfold json_of_turn. rewrite encode_object.
  cbn [forallb]. rewrite (p_printable 123) by lia. cbn [andb].
  rewrite !forallb_app, !forallb_newline_indent. cbn [forallb].
  rewrite (p_printable 125) by lia. cbn [andb]. rewrite andb_true_r.
  apply forallb_join; [apply forallb_separator|].
  intros x [<-|[<-|[]]]; unfold member_text; cbn [fst snd encode];
    rewrite !forallb_app, !forallb_basestring
      by (assumption || (apply raw_ok_printable; reflexivity));
    cbn; rewrite !p_printable by lia; reflexivity.
Qed.

Lemma forallb_encode_transcript (lvl : nat) (h : list turn) :
  (forall t, In t h -> raw_ok p (role t) = true /\ raw_ok p (content t) = true) ->
  forallb p (encode lvl (json_of_transcript h)) = true.
Proof.
  intros Hh. unfold json_of_transcript. destruct h as [|t h].
  - cbn. now rewrite !p_printable by lia.
  - change (map json_of_turn (t :: h)) with (json_of_turn t :: map json_of_turn h).
    rewrite encode_array.
    cbn [forallb]. rewrite (p_printable 91) by lia. cbn [andb].
    rewrite !forallb_app, !forallb_newline_indent. cbn [forallb].
    rewrite (p_printable 93) by lia. cbn [andb]. rewrite andb_true_r.
    apply forallb_join; [apply forallb_separator|].
    intros x Hx. apply in_map_iff in Hx as [v [<- Hv]].
    change (json_of_turn t :: map json_of_turn h) with (map json_of_turn (t :: h)) in Hv.
    apply in_map_iff in Hv as [t' [<- Ht']].
    destruct (Hh t' Ht'). now apply forallb_encode_turn.
Qed.

Lemma forallb_encode_entries (lvl : nat) (l : list (list N * list turn)) :
  (forall kv, In kv l ->
     raw_ok p (fst kv) = true
     /\ forall t, In t (snd kv) -> raw_ok p (role t) = true /\ raw_ok p (content t) = true) ->
  forallb p (encode lvl (json_of_entries l)) = true.
Proof.
  intros Hl. unfold json_of_entries. destruct l as [|kv0 l].
  - cbn. now rewrite !p_printable by lia.
  - set (ms := map _ (kv0 :: l)).
    assert (Hms : ms = (fst kv0, json_of_transcript (snd kv0))
                       :: map (fun kv => (fst kv, json_of_transcript (snd kv))) l)
      by reflexivity.
    rewrite Hms, encode_object, <- Hms.
    cbn [forallb]. rewrite (p_printable 123) by lia. cbn [andb].
    rewrite !forallb_app, !forallb_newline_indent. cbn [forallb].
    rewrite (p_printable 125) by lia. cbn [andb]. rewrite andb_true_r.
    apply forallb_join; [apply forallb_separator|].
    intros x Hx. subst ms. rewrite map_map in Hx.
    apply in_map_iff in Hx as [kv [<- Hkv]]. destruct (Hl kv Hkv) as [Hk Hh].
    unfold member_text. cbn [fst snd].
    rewrite !forallb_app, forallb_basestring, forallb_encode_transcript by assumption.
    cbn. now rewrite !p_printable by lia.
Qed.
End Emitted.

Lemma saved_text_entries (c : gmap (list N) (list turn)) :
  saved_text c = encode 0 (json_of_entries (map_to_list c)).
Proof. reflexivity. Qed.

Lemma universal_newlines_id (s : list N) :
  forallb (fun c => negb (c =? 13)) s = true -> universal_newlines s = s.
Proof.
  induction s as [|c s IH]; [reflexivity|]. cbn [forallb universal_newlines].
  intros H. apply andb_prop in H as [Hc Hs].
  destruct (c =? 13); [discriminate|]. f_equal. now apply IH.
Qed.

Lemma saved_text_no_cr (c : gmap (list N) (list turn)) :
  forallb (fun x => negb (x =? 13)) (saved_text c) = true.
Proof.
  assert (Hraw : forall s, raw_ok (fun x => negb (x =? 13)) s = true).
  { intros s. induction s as [|x s IH]; [reflexivity|]. cbn [raw_ok forallb].
    fold (raw_ok (fun x => negb (x =? 13)) s). rewrite IH, andb_true_r.
    destruct (N.eqb_spec x 13) as [->|]; [reflexivity|apply orb_true_r]. }
  rewrite saved_text_entries. apply forallb_encode_entries.
  - intros x Hx. destruct (N.eqb_spec x 13); [lia|reflexivity].
  - reflexivity.
  - intros kv _. split; [apply Hraw|]. intros t _. split; apply Hraw.
Qed.

Lemma raw_ok_encodable (s : list N) :
  forallb utf8_encodable s = true -> raw_ok utf8_encodable s = true.
Proof.
  induction s as [|x s IH]; [reflexivity|]. cbn [forallb raw_ok]. intros H.
  apply andb_prop in H as [Hx Hs]. rewrite Hx, orb_true_r. now apply IH.
Qed.

Lemma saved_text_encodable (c : gmap (list N) (list turn)) :
  encodable_sessions c = true -> forallb utf8_encodable (saved_text c) = true.
Proof.
  unfold encodable_sessions, strings_of_sessions. intros H.
  rewrite forallb_forall in H.
  rewrite saved_text_entries. apply forallb_encode_entries.
  - intros x Hx. unfold utf8_encodable.
    destruct (N.ltb_spec x 55296); [reflexivity|lia].
  - reflexivity.
  - intros kv Hkv. split.
    + apply raw_ok_encodable, H, in_flat_map. exists kv. split; [exact Hkv|now left].
    + intros t Ht. split; apply raw_ok_encodable, H, in_flat_map; exists kv;
        (split; [exact Hkv|]); right; apply in_flat_map; exists t;
        (split; [exact Ht|]); cbn; auto.
Qed.

(** ** The codec reads back what it wrote *)

Ltac div_lia := zify; Z.to_euclidean_division_equations; lia.

Ltac split_tests :=
  repeat match goal with
         | |- context [N.ltb ?a ?b] => destruct (N.ltb_spec a b); try div_lia
         | |- context [N.leb ?a ?b] => destruct (N.leb_spec a b); try div_lia
         end.

Lemma utf8_decode_char (c : N) (b r : list N) :
  utf8_encode_char c = Some b ->
  utf8_decode (b ++ r) = cons_opt c (utf8_decode r).
Proof.
  unfold utf8_encode_char. intros H.
  destruct (N.ltb_spec c 128).
  { injection H as <-. cbn [app utf8_decode]. now split_tests. }
  destruct (N.ltb_spec c 2048).
  { injection H as <-. cbn [app utf8_decode]. unfold is_continuation.
    replace ((192 + c / 64 - 192) * 64 + (128 + c mod 64 - 128)) with c by div_lia.
    now split_tests. }
  destruct (N.ltb_spec c 65536).
  { destruct (is_surrogate c) eqn:Es; [discriminate|].
    injection H as <-. cbn [app utf8_decode]. unfold is_continuation.
    replace ((224 + c / 4096 - 224) * 4096 + (128 + (c / 64) mod 64 - 128) * 64
             + (128 + c mod 64 - 128)) with c by div_lia.
    rewrite Es. now split_tests. }
  destruct (N.ltb_spec c 1114112); [|discriminate].
  injection H as <-. cbn [app utf8_decode]. unfold is_continuation.
  replace ((240 + c / 262144 - 240) * 262144 + (128 + (c / 4096) mod 64 - 128) * 4096
           + (128 + (c / 64) mod 64 - 128) * 64 + (128 + c mod 64 - 128))
    with c by div_lia.
  now split_tests.
Qed.

Lemma utf8_decode_encode (s bs : list N) :
  utf8_encode s = Some bs -> utf8_decode bs = Some s.
Proof.
  revert bs. induction s as [|c s IH]; intros bs H.
  - injection H as <-. reflexivity.
  - cbn [utf8_encode] in H.
    destruct (utf8_encode_char c) as [b|] eqn:Ec; [|discriminate].
    destruct (utf8_encode s) as [bs'|] eqn:Es; [|discriminate].
    injection H as <-. rewrite (utf8_decode_char _ _ _ Ec), (IH _ eq_refl). reflexivity.
Qed.

Lemma utf8_encode_char_encodable (c : N) :
  utf8_encodable c = true -> is_Some (utf8_encode_char c).
Proof.
  unfold utf8_encodable, utf8_encode_char, is_surrogate. intros H.
  destruct (N.ltb_spec c 128); [now eexists|].
  destruct (N.ltb_spec c 2048); [now eexists|].
  destruct (N.ltb_spec c 55296), (N.ltb_spec 57343 c), (N.leb_spec c 1114111);
    try discriminate;
    destruct (N.ltb_spec c 65536), (N.leb_spec 55296 c), (N.leb_spec c 57343),
      (N.ltb_spec c 1114112); cbn [andb]; try lia; now eexists.
Qed.

Lemma utf8_encode_encodable (s : list N) :
  forallb utf8_encodable s = true -> is_Some (utf8_encode s).
Proof.
  induction s as [|c s IH]; [now eexists|]. cbn [forallb utf8_encode]. intros H.
  apply andb_prop in H as [Hc Hs].
  destruct (utf8_encode_char_encodable c Hc) as [b ->].
  destruct (IH Hs) as [bs ->]. now eexists.
Qed.

Lemma load_saved_text (c : gmap (list N) (list turn)) (bytes : list N) :
  utf8_encode (saved_text c) = Some bytes ->
  load_CONVERSATIONS (Some bytes) = Sessions c.
Proof.
  intros Hb. unfold load_CONVERSATIONS. rewrite (utf8_decode_encode _ _ Hb).
  rewrite universal_newlines_id by apply saved_text_no_cr.
  change (saved_text c) with (json_dumps (json_of_entries (map_to_list c))).
  rewrite json_loads_entries, sessions_of_json_of_sessions. reflexivity.
Qed.

(** The handler raises nothing but its two HTTP errors: the lookups of
    the session never miss. *)
Lemma chat_endpoint_raises (e : env) (query : ChatQuery) (s s' : state) (ex : exn) :
  chat_endpoint e query s = (Raise ex, s') ->
  ex = HTTPException 400 (lit "Empty question")
  \/ exists msg, ex = HTTPException 500 (lit "LLM error: " ++ msg).
Proof.
  intros H. destruct (decide (question_of query = [])) as [Hq|Hq].
  - rewrite chat_endpoint_blank in H by assumption. left. congruence.
  - rewrite chat_endpoint_exchange in H by assumption.
    destruct (llm_invoke e _) as [answer|msg]; [discriminate|].
    right. exists msg. congruence.
Qed.

(** ** The sample exchanges *)

Example str_of_int_12 : str_of_int 12 = lit "12".
Proof. reflexivity. Qed.

Example str_of_int_neg : str_of_int (-305) = lit "-305".
Proof. reflexivity. Qed.

Example strip_padded : strip (lit "  a b  ") = lit "a b".
Proof. reflexivity. Qed.

(** A first question without session id, two snippets retrieved: four
    turns are recorded and two citations numbered "1" and "2" returned. *)
Example first_question_with_two_snippets :
  chat_endpoint Sample.env_up Sample.ask_gst (empty_store None)
  = (Ok Sample.gst_response, Sample.after_gst)
  /\ CONVERSATIONS Sample.after_gst !! lit "u-1" = Some Sample.gst_transcript.
Proof. split; vm_compute; reflexivity. Qed.

(** A known session with four turns, the retriever raising: two turns
    are added and no citation is returned. *)
Example known_session_without_retriever :
  let r := chat_endpoint Sample.env_no_kb Sample.ask_again Sample.after_gst in
  fst r = Ok {| r_answer := lit "A tax on supply.";
                r_session_id := Some (lit "u-1");
                r_citations := Some [] |}
  /\ CONVERSATIONS (snd r) !! lit "u-1"
     = Some (Sample.gst_transcript
             ++ [Turn (lit "user") (lit "And MSME?");
                 Turn (lit "assistant") (lit "A tax on supply.")]).
Proof. split; vm_compute; reflexivity. Qed.

(** The file written by the first exchange is read back as the dict. *)
Example sample_file_read_back :
  load_CONVERSATIONS (disk Sample.after_gst) = Sessions (CONVERSATIONS Sample.after_gst).
Proof. vm_compute. reflexivity. Qed.

(** A dict holding a lone surrogate cannot be written: the codec raises,
    the exception is swallowed, and the file is whatever the failed write
    left. *)
Example lone_surrogate_not_written :
  let c : gmap (list N) (list turn) := {[ lit "s" := [Turn (lit "user") [55296]] ]} in
  let s := {| CONVERSATIONS := c; disk := None; log := [] |} in
  write_succeeds Sample.env_up c = false
  /\ disk (snd (save_sessions Sample.env_up s)) = snd (fs_fault Sample.env_up).
Proof. split; vm_compute; reflexivity. Qed.

Example str_of_int_0 : str_of_int 0 = lit "0".
Proof. reflexivity. Qed.

(** The code's [strip] trims, and its [join] on a blank line separates
    by blank lines. *)
Lemma strip_trimmed (s : list N) : trimmed_of s (strip s).
Proof.
  destruct (strip_spec s) as (p & p' & E & Hp & Hp' & Hh & Hl).
  split; [|split; assumption]. now exists p, p'.
Qed.

Lemma join_blank_line_separated (parts : list (list N)) :
  join [LF; LF] parts = blank_line_separated parts.
Proof.
  destruct parts as [|p ps]; [reflexivity|].
  revert p. induction ps as [|q ps IH]; intros p.
  - cbn. now rewrite app_nil_r.
  - change (join [LF; LF] (p :: q :: ps)) with (p ++ [LF; LF] ++ join [LF; LF] (q :: ps)).
    rewrite IH. reflexivity.
Qed.

(** ** The properties of the specification *)

(** C1. A successful exchange appends to the transcript of its session,
    in this order: the evidence turn (an assistant turn, present exactly
    when retrieval produced a snippet), the user turn holding the
    question, the assistant turn holding the answer. Nothing else in the
    dict changes. *)
Theorem successful_exchange_order (e : env) (query : ChatQuery) (s s' : state)
        (resp : ChatResponse) :
  chat_endpoint e query s = (Ok resp, s') ->
  let sid := session_of e query in
  let hits := kb_hits_of e query in
  exists evidence,
    CONVERSATIONS s' !! sid =
      Some (transcript_before s sid
            ++ evidence
            ++ [Turn (lit "user") (question_of query);
                Turn (lit "assistant") (r_answer resp)])
    /\ r_session_id resp = Some sid
    /\ (hits = [] -> evidence = [])
    /\ (hits <> [] -> exists block, evidence = [Turn (lit "assistant") block])
    /\ (forall other, other <> sid ->
          CONVERSATIONS s' !! other = CONVERSATIONS s !! other).
Proof.
  intros H sid hits.
  destruct (chat_endpoint_Ok_inv _ _ _ _ _ H) as (Hq & Hllm & Hresp & ->).
  exists (evidence_turns hits). repeat split.
  - unfold state_after_answer, prompt_transcript. cbn [CONVERSATIONS].
    rewrite lookup_insert_eq. fold sid hits. now rewrite <- !app_assoc.
  - now rewrite Hresp.
  - now intros ->.
  - intros Hne. destruct hits as [|h hits'] eqn:E; [contradiction|].
    eexists. reflexivity.
  - intros other Hne. unfold state_after_answer. cbn [CONVERSATIONS].
    apply lookup_insert_ne. intros E. apply Hne. symmetry. exact E.
Qed.

Lemma successful_exchange_order_witness :
  chat_endpoint Sample.env_up Sample.ask_gst (empty_store None)
  = (Ok Sample.gst_response, Sample.after_gst)
  /\ exists evidence,
       CONVERSATIONS Sample.after_gst !! session_of Sample.env_up Sample.ask_gst =
         Some (transcript_before (empty_store None)
                 (session_of Sample.env_up Sample.ask_gst)
               ++ evidence
               ++ [Turn (lit "user") (question_of Sample.ask_gst);
                   Turn (lit "assistant") (r_answer Sample.gst_response)])
       /\ r_session_id Sample.gst_response = Some (session_of Sample.env_up Sample.ask_gst)
       /\ (kb_hits_of Sample.env_up Sample.ask_gst = [] -> evidence = [])
       /\ (kb_hits_of Sample.env_up Sample.ask_gst <> [] ->
           exists block, evidence = [Turn (lit "assistant") block])
       /\ (forall other, other <> session_of Sample.env_up Sample.ask_gst ->
             CONVERSATIONS Sample.after_gst !! other
             = CONVERSATIONS (empty_store None) !! other).
Proof.
  split.
  - vm_compute. reflexivity.
  - apply (successful_exchange_order Sample.env_up Sample.ask_gst (empty_store None)
             Sample.after_gst Sample.gst_response).
    vm_compute. reflexivity.
Defined.

(** C2. In every state reached from an empty dict by a sequence of
    exchanges, every transcript starts with the system turn holding the
    preamble and holds no other system turn; a further exchange only
    appends to it, and what it appends holds no system turn. *)
Theorem preamble_invariant (steps : list (env * ChatQuery)) (d : option (list N))
        (sid : list N) (h : list turn) :
  CONVERSATIONS (run steps (empty_store d)) !! sid = Some h ->
  head h = Some system_turn
  /\ system_turns h = [system_turn]
  /\ forall e query,
       exists more,
         CONVERSATIONS (snd (chat_endpoint e query (run steps (empty_store d)))) !! sid
         = Some (h ++ more)
         /\ system_turns more = [].
Proof.
  intros Hs.
  assert (Hinv : store_inv (CONVERSATIONS (run steps (empty_store d)))).
  { apply run_inv. intros k x Hk. cbn in Hk. rewrite lookup_empty in Hk. discriminate. }
  destruct (Hinv sid h Hs) as [rest [-> Hrest]].
  split; [reflexivity|]. split.
  - unfold system_turns. cbn [List.filter].
    change (is_system system_turn) with true.
    f_equal. now apply system_turns_not_system.
  - intros e query.
    destruct (chat_endpoint_grows e query _ _ _ Hs) as [more [Hm Hns]].
    exists more. split; [exact Hm|]. now apply system_turns_not_system.
Qed.

Lemma preamble_invariant_witness :
  CONVERSATIONS (run [(Sample.env_up, Sample.ask_gst)] (empty_store None)) !! lit "u-1"
  = Some Sample.gst_transcript
  /\ head Sample.gst_transcript = Some system_turn
  /\ system_turns Sample.gst_transcript = [system_turn]
  /\ forall e query,
       exists more,
         CONVERSATIONS
           (snd (chat_endpoint e query
                   (run [(Sample.env_up, Sample.ask_gst)] (empty_store None))))
         !! lit "u-1"
         = Some (Sample.gst_transcript ++ more)
         /\ system_turns more = [].
Proof.
  split.
  - vm_compute. reflexivity.
  - apply (preamble_invariant [(Sample.env_up, Sample.ask_gst)] None (lit "u-1")
             Sample.gst_transcript).
    vm_compute. reflexivity.
Defined.

(** C3. When the Inference Gateway fails, the caller gets the inference
    error, and the transcript holds what was there before, the evidence
    turn if any and the user turn, which is its last turn: no answer turn
    is appended. *)
Theorem inference_failure_keeps_question (e : env) (query : ChatQuery) (s : state)
        (msg : list N) :
  question_of query <> [] ->
  llm_invoke e (to_langchain_messages (prompt_transcript e query s)) = Raises msg ->
  let sid := session_of e query in
  let r := chat_endpoint e query s in
  fst r = Raise (HTTPException 500 (lit "LLM error: " ++ msg))
  /\ CONVERSATIONS (snd r) !! sid =
       Some (transcript_before s sid
             ++ evidence_turns (kb_hits_of e query)
             ++ [Turn (lit "user") (question_of query)])
  /\ last (default [] (CONVERSATIONS (snd r) !! sid))
     = Some (Turn (lit "user") (question_of query)).
Proof.
  intros Hq Hllm sid r. subst r.
  rewrite chat_endpoint_exchange by assumption. rewrite Hllm. cbn [fst snd].
  unfold state_at_invoke. cbn [CONVERSATIONS]. rewrite lookup_insert_eq.
  unfold prompt_transcript. fold sid. repeat split.
  cbn [default from_option id]. rewrite app_assoc. apply last_snoc.
Qed.

Lemma inference_failure_keeps_question_witness :
  question_of Sample.ask_gst <> []
  /\ llm_invoke Sample.env_llm_down
       (to_langchain_messages
          (prompt_transcript Sample.env_llm_down Sample.ask_gst (empty_store None)))
     = Raises (lit "timeout")
  /\ (let sid := session_of Sample.env_llm_down Sample.ask_gst in
      let r := chat_endpoint Sample.env_llm_down Sample.ask_gst (empty_store None) in
      fst r = Raise (HTTPException 500 (lit "LLM error: " ++ lit "timeout"))
      /\ CONVERSATIONS (snd r) !! sid =
           Some (transcript_before (empty_store None) sid
                 ++ evidence_turns (kb_hits_of Sample.env_llm_down Sample.ask_gst)
                 ++ [Turn (lit "user") (question_of Sample.ask_gst)])
      /\ last (default [] (CONVERSATIONS (snd r) !! sid))
         = Some (Turn (lit "user") (question_of Sample.ask_gst))).
Proof.
  assert (Hq : question_of Sample.ask_gst <> [])
    by (intros H; vm_compute in H; discriminate H).
  split; [exact Hq|]. split; [reflexivity|].
  apply (inference_failure_keeps_question Sample.env_llm_down Sample.ask_gst
           (empty_store None) (lit "timeout") Hq).
  reflexivity.
Defined.

(** C4. A request whose question is absent, empty or made of whitespace
    only is rejected with the empty-question error, and the state is
    left as it was: no session created, no turn appended, no call to a
    collaborator logged, the file untouched. *)
Theorem blank_question_rejected (e : env) (query : ChatQuery) (s : state) :
  is_blank (q_question query) = true ->
  chat_endpoint e query s = (Raise (HTTPException 400 (lit "Empty question")), s).
Proof.
  intros H. apply chat_endpoint_blank. now apply blank_question.
Qed.

Lemma blank_question_rejected_witness :
  is_blank (q_question Sample.ask_blank) = true
  /\ chat_endpoint Sample.env_up Sample.ask_blank (empty_store None)
     = (Raise (HTTPException 400 (lit "Empty question")), empty_store None).
Proof.
  split; [reflexivity|].
  apply (blank_question_rejected Sample.env_up Sample.ask_blank (empty_store None)).
  reflexivity.
Defined.

(** C5. When the Retrieval Gateway raises, or returns no snippet, the
    exchange goes on: what it returns and what it leaves in the dict are
    decided by the Inference Gateway alone, on a transcript without
    evidence turn, and the citations of a successful exchange are empty.
    The outcome is stated once for both cases: it is the same. *)
Theorem retrieval_failure_as_empty (e : env) (query : ChatQuery) (s : state) :
  question_of query <> [] ->
  ((exists msg, retrieve e (question_of query) 5 = Raises msg)
   \/ retrieve e (question_of query) 5 = Returns (Some [])
   \/ retrieve e (question_of query) 5 = Returns None) ->
  let sid := session_of e query in
  let prompt := transcript_before s sid ++ [Turn (lit "user") (question_of query)] in
  let r := chat_endpoint e query s in
  match llm_invoke e (to_langchain_messages prompt) with
  | Returns answer =>
      fst r = Ok {| r_answer := answer;
                    r_session_id := Some sid;
                    r_citations := Some [] |}
      /\ CONVERSATIONS (snd r) =
           <[sid := prompt ++ [Turn (lit "assistant") answer]]> (CONVERSATIONS s)
  | Raises msg =>
      fst r = Raise (HTTPException 500 (lit "LLM error: " ++ msg))
      /\ CONVERSATIONS (snd r) = <[sid := prompt]> (CONVERSATIONS s)
      /\ disk (snd r) = disk s
  end.
Proof.
  intros Hq Hr sid prompt r. subst r.
  assert (Hhits : kb_hits_of e query = []).
  { unfold kb_hits_of. destruct Hr as [[msg ->]|[-> | ->]]; reflexivity. }
  rewrite chat_endpoint_exchange by assumption.
  unfold state_after_answer, state_at_invoke, prompt_transcript.
  rewrite Hhits. cbn [evidence_turns app imap]. fold sid. fold prompt.
  destruct (llm_invoke e (to_langchain_messages prompt)); repeat split.
Qed.

Lemma retrieval_failure_as_empty_witness :
  question_of Sample.ask_again <> []
  /\ ((exists msg, retrieve Sample.env_no_kb (question_of Sample.ask_again) 5 = Raises msg)
      \/ retrieve Sample.env_no_kb (question_of Sample.ask_again) 5 = Returns (Some [])
      \/ retrieve Sample.env_no_kb (question_of Sample.ask_again) 5 = Returns None)
  /\ (let sid := session_of Sample.env_no_kb Sample.ask_again in
      let prompt :=
        transcript_before Sample.after_gst sid
        ++ [Turn (lit "user") (question_of Sample.ask_again)] in
      let r := chat_endpoint Sample.env_no_kb Sample.ask_again Sample.after_gst in
      match llm_invoke Sample.env_no_kb (to_langchain_messages prompt) with
      | Returns answer =>
          fst r = Ok {| r_answer := answer;
                        r_session_id := Some sid;
                        r_citations := Some [] |}
          /\ CONVERSATIONS (snd r) =
               <[sid := prompt ++ [Turn (lit "assistant") answer]]>
                 (CONVERSATIONS Sample.after_gst)
      | Raises msg =>
          fst r = Raise (HTTPException 500 (lit "LLM error: " ++ msg))
          /\ CONVERSATIONS (snd r) = <[sid := prompt]> (CONVERSATIONS Sample.after_gst)
          /\ disk (snd r) = disk Sample.after_gst
      end).
Proof.
  assert (Hq : question_of Sample.ask_again <> [])
    by (intros H; vm_compute in H; discriminate H).
  assert (Hr : (exists msg,
                  retrieve Sample.env_no_kb (question_of Sample.ask_again) 5 = Raises msg)
               \/ retrieve Sample.env_no_kb (question_of Sample.ask_again) 5
                  = Returns (Some [])
               \/ retrieve Sample.env_no_kb (question_of Sample.ask_again) 5
                  = Returns None)
    by (left; exists (lit "index missing"); reflexivity).
  split; [exact Hq|]. split; [exact Hr|].
  exact (retrieval_failure_as_empty Sample.env_no_kb Sample.ask_again Sample.after_gst
           Hq Hr).
Defined.

(** C6. With at least one snippet, the evidence turn appended right after
    the earlier transcript holds the header [CONTEXT:] and a newline, then
    as many formatted snippets as there are snippets, in their order and
    separated by blank lines; the one at 1-based position [i] is the tag
    [[i] source#chunkchunk_id], a newline and the text of the snippet
    trimmed of surrounding whitespace, where a missing source is
    [knowledge_base], a missing chunk id is [i] and a missing text is
    empty. *)
Theorem evidence_block_format (e : env) (query : ChatQuery) (s : state) :
  question_of query <> [] ->
  kb_hits_of e query <> [] ->
  let hits := kb_hits_of e query in
  let sid := session_of e query in
  exists (snippets : list (list N)) (more : list turn),
    CONVERSATIONS (snd (chat_endpoint e query s)) !! sid =
      Some (transcript_before s sid
            ++ Turn (lit "assistant")
                 (lit "CONTEXT:" ++ [LF] ++ blank_line_separated snippets)
            :: more)
    /\ length snippets = length hits
    /\ forall (i : nat) (h : gmap (list N) pyval),
         hits !! i = Some h ->
         exists text,
           snippets !! i = Some (spec_tag (S i) h ++ [LF] ++ text)
           /\ trimmed_of (spec_raw_text h) text.
Proof.
  intros Hq Hhits hits sid.
  rewrite chat_endpoint_CONVERSATIONS by assumption. fold sid.
  rewrite lookup_insert_eq. unfold appended, evidence_turns. fold hits.
  assert (Hne : hits <> []) by exact Hhits.
  exists (imap (fun i h => spec_snippet (S i) h) hits).
  destruct hits as [|h0 hits0] eqn:E; [contradiction|]. rewrite <- E.
  eexists. split; [|split].
  - unfold spec_evidence_block. rewrite join_blank_line_separated.
    cbn [app]. reflexivity.
  - apply length_imap.
  - intros i h Hi. exists (spec_text h). split.
    + rewrite list_lookup_imap, Hi. cbn [fmap option_fmap option_map].
      unfold spec_snippet, spec_tag. now rewrite <- !app_assoc.
    + unfold spec_text, spec_raw_text.
      destruct (h !! lit "text") as [v|]; [apply strip_trimmed|].
      split; [exists [], []; now repeat split|split; discriminate].
Qed.

Lemma evidence_block_format_witness :
  question_of Sample.ask_gst <> []
  /\ kb_hits_of Sample.env_up Sample.ask_gst <> []
  /\ (let hits := kb_hits_of Sample.env_up Sample.ask_gst in
      let sid := session_of Sample.env_up Sample.ask_gst in
      exists (snippets : list (list N)) (more : list turn),
        CONVERSATIONS (snd (chat_endpoint Sample.env_up Sample.ask_gst (empty_store None)))
        !! sid =
          Some (transcript_before (empty_store None) sid
                ++ Turn (lit "assistant")
                     (lit "CONTEXT:" ++ [LF] ++ blank_line_separated snippets)
                :: more)
        /\ length snippets = length hits
        /\ forall (i : nat) (h : gmap (list N) pyval),
             hits !! i = Some h ->
             exists text,
               snippets !! i = Some (spec_tag (S i) h ++ [LF] ++ text)
               /\ trimmed_of (spec_raw_text h) text)
  /\ kb_hits_of Sample.env_up Sample.ask_gst = [Sample.gst_hit; Sample.bare_hit]
  /\ CONVERSATIONS (snd (chat_endpoint Sample.env_up Sample.ask_gst (empty_store None)))
     !! lit "u-1"
     = Some [system_turn;
             Turn (lit "assistant")
               (lit "CONTEXT:" ++ [LF]
                ++ lit "[1] gst.pdf#chunk1" ++ [LF] ++ lit "GST is a tax."
                ++ [LF; LF]
                ++ lit "[2] knowledge_base#chunk7" ++ [LF]);
             Turn (lit "user") (lit "What is GST?");
             Turn (lit "assistant") (lit "A tax on supply.")].
Proof.
  assert (Hq : question_of Sample.ask_gst <> [])
    by (intros H; vm_compute in H; discriminate H).
  assert (Hh : kb_hits_of Sample.env_up Sample.ask_gst <> [])
    by (intros H; vm_compute in H; discriminate H).
  split; [exact Hq|]. split; [exact Hh|]. split.
  - exact (evidence_block_format Sample.env_up Sample.ask_gst (empty_store None) Hq Hh).
  - split; vm_compute; reflexivity.
Defined.

(** C7. The citations returned by a successful exchange are as many as
    the snippets and in their order; the one at 0-based index [i] has the
    id [str(i + 1)] and the source and chunk id of the snippet at that
    index, defaults filled. *)
Theorem citations_follow_snippets (e : env) (query : ChatQuery) (s s' : state)
        (resp : ChatResponse) :
  chat_endpoint e query s = (Ok resp, s') ->
  exists cits,
    r_citations resp = Some cits
    /\ length cits = length (kb_hits_of e query)
    /\ forall (i : nat) h,
         kb_hits_of e query !! i = Some h ->
         cits !! i =
           Some {| c_id := str_of_int (Z.of_nat i + 1);
                   c_source := spec_source h;
                   c_chunk_id := spec_chunk_id (i + 1) h |}.
Proof.
  intros H.
  destruct (chat_endpoint_Ok_inv _ _ _ _ _ H) as (Hq & Hllm & Hresp & ->).
  eexists. split; [rewrite Hresp; reflexivity|]. split.
  - apply length_imap.
  - intros i h Hi. rewrite list_lookup_imap, Hi. cbn. unfold spec_citation.
    replace (i + 1)%nat with (S i) by lia.
    now replace (Z.of_nat i + 1)%Z with (Z.of_nat (S i)) by lia.
Qed.

Lemma citations_follow_snippets_witness :
  chat_endpoint Sample.env_up Sample.ask_gst (empty_store None)
  = (Ok Sample.gst_response, Sample.after_gst)
  /\ exists cits,
       r_citations Sample.gst_response = Some cits
       /\ length cits = length (kb_hits_of Sample.env_up Sample.ask_gst)
       /\ forall (i : nat) h,
            kb_hits_of Sample.env_up Sample.ask_gst !! i = Some h ->
            cits !! i =
              Some {| c_id := str_of_int (Z.of_nat i + 1);
                      c_source := spec_source h;
                      c_chunk_id := spec_chunk_id (i + 1) h |}.
Proof.
  split.
  - vm_compute. reflexivity.
  - apply (citations_follow_snippets Sample.env_up Sample.ask_gst (empty_store None)
             Sample.after_gst Sample.gst_response).
    vm_compute. reflexivity.
Defined.

(** C8, amended. Whenever [save_sessions] gets its text written (the
    operating system lets the file be written and the codec accepts every
    character of the text), loading the file (decoding its bytes, parsing
    the text, reading the value as a dict of transcripts) yields the dict
    as it stood when it was saved; saving does not touch the dict. *)
Theorem persist_then_reload (e : env) (s : state) :
  write_succeeds e (CONVERSATIONS s) = true ->
  let s' := snd (save_sessions e s) in
  load_CONVERSATIONS (disk s') = Sessions (CONVERSATIONS s)
  /\ CONVERSATIONS s' = CONVERSATIONS s.
Proof.
  intros Hw s'. subst s'. rewrite save_sessions_run. cbn [snd disk CONVERSATIONS].
  unfold write_succeeds, written_bytes in *.
  destruct (fs_ok e); [|discriminate].
  destruct (utf8_encode (saved_text (CONVERSATIONS s))) as [bytes|] eqn:Hb;
    [|discriminate].
  split; [now apply load_saved_text|reflexivity].
Qed.

Lemma persist_then_reload_witness :
  write_succeeds Sample.env_up (CONVERSATIONS Sample.after_gst) = true
  /\ (let s' := snd (save_sessions Sample.env_up Sample.after_gst) in
      load_CONVERSATIONS (disk s') = Sessions (CONVERSATIONS Sample.after_gst)
      /\ CONVERSATIONS s' = CONVERSATIONS Sample.after_gst).
Proof.
  assert (Hw : write_succeeds Sample.env_up (CONVERSATIONS Sample.after_gst) = true)
    by (vm_compute; reflexivity).
  split; [exact Hw|].
  exact (persist_then_reload Sample.env_up Sample.after_gst Hw).
Defined.

(** C8 as the specification words it, for every dict, does not hold. The
    dict [lone_surrogate_sessions] is what the module loads from a file
    that holds the surrogate escaped; saving it raises in the codec, which
    [save_sessions] swallows, and leaves the file cut before the
    surrogate; loading that file gives the empty dict, not the dict that
    was saved. *)
Example persist_then_reload_lone_surrogate :
  let c := lone_surrogate_sessions in
  let s := {| CONVERSATIONS := c; disk := Some escaped_surrogate_file; log := [] |} in
  let s' := snd (save_sessions env_surrogate s) in
  start (Some escaped_surrogate_file) = Some s
  /\ fs_ok env_surrogate = true
  /\ utf8_encode (saved_text c) = None
  /\ disk s' = Some truncated_file
  /\ load_CONVERSATIONS (disk s') = Sessions ∅
  /\ load_CONVERSATIONS (disk s') <> Sessions (CONVERSATIONS s).
Proof.
  cbv zeta. repeat split; try (vm_compute; reflexivity).
  intros H. vm_compute in H. discriminate H.
Qed.

(** The write goes through for every dict free of surrogates when the
    operating system allows it; the file then reads back as the dict. *)
Lemma reload_of_encodable_sessions (e : env) (s : state) :
  fs_ok e = true ->
  encodable_sessions (CONVERSATIONS s) = true ->
  write_succeeds e (CONVERSATIONS s) = true
  /\ load_CONVERSATIONS (disk (snd (save_sessions e s))) = Sessions (CONVERSATIONS s).
Proof.
  intros Hfs Henc.
  destruct (utf8_encode_encodable _ (saved_text_encodable _ Henc)) as [bytes Hb].
  assert (Hw : written_bytes e (CONVERSATIONS s) = Some bytes).
  { unfold written_bytes. now rewrite Hfs. }
  split; [unfold write_succeeds; now rewrite Hw|].
  rewrite save_sessions_run. cbn [snd disk]. rewrite Hw. now apply load_saved_text.
Qed.

(** C9. For a question that is not blank, the user turn recorded, right
    after the earlier transcript and the evidence turn, and the first call
    logged, the retrieval with [k = 5], both hold the question trimmed:
    the raw question is that text between two runs of whitespace, and that
    text neither starts nor ends with whitespace. *)
Theorem question_is_trimmed (e : env) (query : ChatQuery) (s : state) :
  question_of query <> [] ->
  let raw := default [] (q_question query) in
  let sid := session_of e query in
  let s' := snd (chat_endpoint e query s) in
  exists q : list N,
    trimmed_of raw q
    /\ (exists after,
          CONVERSATIONS s' !! sid =
            Some ((transcript_before s sid ++ evidence_turns (kb_hits_of e query))
                  ++ Turn (lit "user") q :: after))
    /\ (exists rest, log s' = log s ++ CallRetrieve q 5 :: rest).
Proof.
  intros Hq raw sid s'. subst s'. exists (strip raw). split; [|split].
  - apply strip_trimmed.
  - rewrite chat_endpoint_CONVERSATIONS by assumption. fold sid.
    rewrite lookup_insert_eq. unfold appended.
    eexists. rewrite <- app_assoc. reflexivity.
  - rewrite chat_endpoint_exchange by assumption.
    destruct (llm_invoke e _) as [answer|msg]; cbn [snd];
      unfold state_after_answer, state_at_invoke, retrieval_events; cbn [log];
      rewrite <- ?app_assoc; cbn [app]; eexists; reflexivity.
Qed.

Lemma question_is_trimmed_witness :
  question_of Sample.ask_gst <> []
  /\ (let raw := default [] (q_question Sample.ask_gst) in
      let sid := session_of Sample.env_up Sample.ask_gst in
      let s' := snd (chat_endpoint Sample.env_up Sample.ask_gst (empty_store None)) in
      exists q : list N,
        trimmed_of raw q
        /\ (exists after,
              CONVERSATIONS s' !! sid =
                Some ((transcript_before (empty_store None) sid
                       ++ evidence_turns (kb_hits_of Sample.env_up Sample.ask_gst))
                      ++ Turn (lit "user") q :: after))
        /\ (exists rest, log s' = log (empty_store None) ++ CallRetrieve q 5 :: rest))
  /\ q_question Sample.ask_gst = Some (lit " What is GST? ")
  /\ CONVERSATIONS (snd (chat_endpoint Sample.env_up Sample.ask_gst (empty_store None)))
     !! lit "u-1"
     = Some [system_turn;
             Turn (lit "assistant") Sample.gst_evidence;
             Turn (lit "user") (lit "What is GST?");
             Turn (lit "assistant") (lit "A tax on supply.")]
  /\ head (log (snd (chat_endpoint Sample.env_up Sample.ask_gst (empty_store None))))
     = Some (CallRetrieve (lit "What is GST?") 5).
Proof.
  assert (Hq : question_of Sample.ask_gst <> [])
    by (intros H; vm_compute in H; discriminate H).
  split; [exact Hq|]. split.
  - exact (question_is_trimmed Sample.env_up Sample.ask_gst (empty_store None) Hq).
  - repeat split; vm_compute; reflexivity.
Defined.

(** C10. When the Inference Gateway fails, the sessions file is left as
    it was and no write of it is attempted, while the dict holds the
    evidence and user turns; every later successful exchange finds them
    still there and attempts to write the whole dict, whose encoded text
    the file then holds when that write goes through. *)
Theorem inference_failure_not_persisted (e : env) (query : ChatQuery) (s : state)
        (msg : list N) :
  question_of query <> [] ->
  llm_invoke e (to_langchain_messages (prompt_transcript e query s)) = Raises msg ->
  let sid := session_of e query in
  let s' := snd (chat_endpoint e query s) in
  disk s' = disk s
  /\ (exists evs, log s' = log s ++ evs /\ existsb is_write evs = false)
  /\ CONVERSATIONS s' !! sid = Some (prompt_transcript e query s)
  /\ forall e2 query2 resp s'',
       chat_endpoint e2 query2 s' = (Ok resp, s'') ->
       (exists more,
          CONVERSATIONS s'' !! sid = Some (prompt_transcript e query s ++ more))
       /\ In (WriteFile (saved_text (CONVERSATIONS s''))) (log s'')
       /\ (write_succeeds e2 (CONVERSATIONS s'') = true ->
           disk s'' = utf8_encode (saved_text (CONVERSATIONS s''))).
Proof.
  intros Hq Hllm sid s'.
  assert (Hs' : s' = state_at_invoke e query s).
  { subst s'. rewrite chat_endpoint_exchange by assumption. now rewrite Hllm. }
  assert (Hsid : CONVERSATIONS s' !! sid = Some (prompt_transcript e query s)).
  { rewrite Hs'. unfold state_at_invoke. cbn [CONVERSATIONS]. apply lookup_insert_eq. }
  split; [now rewrite Hs'|]. split; [|split; [exact Hsid|]].
  - rewrite Hs'. unfold state_at_invoke, retrieval_events. cbn [log].
    eexists. split; [reflexivity|].
    destruct (retrieve e (question_of query) 5); reflexivity.
  - intros e2 query2 resp s'' H2.
    destruct (chat_endpoint_grows e2 query2 s' sid _ Hsid) as [more [Hmore _]].
    rewrite H2 in Hmore. cbn [snd] in Hmore. split; [now exists more|].
    destruct (chat_endpoint_Ok_inv _ _ _ _ _ H2) as (Hq2 & Hllm2 & Hresp & ->).
    unfold state_after_answer. cbn [log disk CONVERSATIONS]. split.
    + apply in_or_app. right. now left.
    + unfold write_succeeds, written_bytes.
      destruct (fs_ok e2); [|discriminate].
      now destruct (utf8_encode _).
Qed.

Lemma inference_failure_not_persisted_witness :
  question_of Sample.ask_again <> []
  /\ llm_invoke Sample.env_llm_down
       (to_langchain_messages
          (prompt_transcript Sample.env_llm_down Sample.ask_again Sample.after_gst))
     = Raises (lit "timeout")
  /\ (let sid := session_of Sample.env_llm_down Sample.ask_again in
      let s' := snd (chat_endpoint Sample.env_llm_down Sample.ask_again Sample.after_gst) in
      disk s' = disk Sample.after_gst
      /\ (exists evs, log s' = log Sample.after_gst ++ evs /\ existsb is_write evs = false)
      /\ CONVERSATIONS s' !! sid
         = Some (prompt_transcript Sample.env_llm_down Sample.ask_again Sample.after_gst)
      /\ forall e2 query2 resp s'',
           chat_endpoint e2 query2 s' = (Ok resp, s'') ->
           (exists more,
              CONVERSATIONS s'' !! sid
              = Some (prompt_transcript Sample.env_llm_down Sample.ask_again
                        Sample.after_gst ++ more))
           /\ In (WriteFile (saved_text (CONVERSATIONS s''))) (log s'')
           /\ (write_succeeds e2 (CONVERSATIONS s'') = true ->
               disk s'' = utf8_encode (saved_text (CONVERSATIONS s'')))).
Proof.
  assert (Hq : question_of Sample.ask_again <> [])
    by (intros H; vm_compute in H; discriminate H).
  split; [exact Hq|]. split; [reflexivity|].
  apply (inference_failure_not_persisted Sample.env_llm_down Sample.ask_again
           Sample.after_gst (lit "timeout") Hq).
  reflexivity.
Defined.

(** * Further properties of the code *)

(** ** Rendering *)

Lemma render_from (h : list turn) (acc : list lc_message) :
  foldl render_step acc h = acc ++ omap message_of h.
Proof.
  revert acc. induction h as [|t h IH]; intros acc.
  - cbn. now rewrite app_nil_r.
  - cbn [foldl]. rewrite IH. unfold render_step, message_of. cbn [omap list_omap].
    unfold message_of.
    repeat case_decide; cbn; rewrite <- ?app_assoc; reflexivity.
Qed.

Lemma render_omap (h : list turn) :
  to_langchain_messages h = omap message_of h.
Proof. exact (render_from h []). Qed.

Lemma render_app (h1 h2 : list turn) :
  to_langchain_messages (h1 ++ h2)
  = to_langchain_messages h1 ++ to_langchain_messages h2.
Proof. rewrite !render_omap. apply omap_app. Qed.

(** ** Renderable transcripts *)

Lemma appended_renderable (e : env) (query : ChatQuery) (s : state) :
  forallb renderable (appended e query s) = true.
Proof.
  unfold appended. rewrite forallb_app. cbn [forallb].
  destruct (kb_hits_of e query); destruct (llm_invoke e _); reflexivity.
Qed.

Lemma chat_endpoint_renderable (e : env) (query : ChatQuery) (s : state) :
  store_renderable (CONVERSATIONS s) ->
  store_renderable (CONVERSATIONS (snd (chat_endpoint e query s))).
Proof.
  intros Hinv sid h.
  destruct (decide (question_of query = [])) as [Hq|Hq].
  - rewrite chat_endpoint_blank by assumption. apply Hinv.
  - rewrite chat_endpoint_CONVERSATIONS by assumption.
    destruct (decide (session_of e query = sid)) as [<-|Hne].
    + rewrite lookup_insert_eq. intros [= <-].
      rewrite forallb_app, appended_renderable, andb_true_r.
      unfold transcript_before.
      destruct (CONVERSATIONS s !! session_of e query) as [h0|] eqn:E; cbn.
      * eapply Hinv, E.
      * reflexivity.
    + rewrite lookup_insert_ne by assumption. apply Hinv.
Qed.

Lemma run_renderable (steps : list (env * ChatQuery)) (s : state) :
  store_renderable (CONVERSATIONS s) ->
  store_renderable (CONVERSATIONS (run steps s)).
Proof.
  revert s. induction steps as [|[e query] steps IH]; intros s Hinv; [exact Hinv|].
  cbn. apply IH, chat_endpoint_renderable, Hinv.
Qed.

Lemma empty_store_renderable (d : option (list N)) :
  store_renderable (CONVERSATIONS (empty_store d)).
Proof. intros k x Hk. cbn in Hk. rewrite lookup_empty in Hk. discriminate. Qed.

Lemma empty_store_inv (d : option (list N)) :
  store_inv (CONVERSATIONS (empty_store d)).
Proof. intros k x Hk. cbn in Hk. rewrite lookup_empty in Hk. discriminate. Qed.

Lemma length_omap_renderable (h : list turn) :
  forallb renderable h = true -> length (omap message_of h) = length h.
Proof.
  induction h as [|t h IH]; [reflexivity|]. cbn [forallb]. intros H.
  apply andb_prop in H as [Ht Hh]. unfold renderable in Ht. cbn [omap list_omap].
  destruct (message_of t); [|discriminate]. cbn. f_equal. now apply IH.
Qed.

Lemma transcript_before_reachable (steps : list (env * ChatQuery)) (d : option (list N))
      (sid : list N) :
  let h := transcript_before (run steps (empty_store d)) sid in
  (exists rest, h = system_turn :: rest) /\ forallb renderable h = true.
Proof.
  cbn zeta. unfold transcript_before.
  destruct (CONVERSATIONS (run steps (empty_store d)) !! sid) as [h|] eqn:E; cbn.
  - split.
    + destruct (run_inv steps _ (empty_store_inv d) sid h E) as [rest [-> _]]. now exists rest.
    + exact (run_renderable steps _ (empty_store_renderable d) sid h E).
  - split; [now exists []|reflexivity].
Qed.

Lemma length_omap_le (h : list turn) :
  (length (omap message_of h) <= length h)%nat.
Proof.
  induction h as [|t h IH]; [cbn; lia|]. cbn [omap list_omap].
  destruct (message_of t); cbn; lia.
Qed.

Lemma length_omap_full (h : list turn) :
  length (omap message_of h) = length h -> forallb renderable h = true.
Proof.
  induction h as [|t h IH]; [reflexivity|]. cbn [omap list_omap forallb].
  unfold renderable at 1. pose proof (length_omap_le h) as Hle.
  destruct (message_of t); cbn [length]; intros H; [|lia].
  cbn. apply IH. lia.
Qed.

(** ** Bytes that are no utf-8 *)

Lemma cons_opt_None {A} (a : A) : cons_opt a None = None.
Proof. reflexivity. Qed.

Lemma utf8_decode_bad_byte (n : nat) (bs : list N) (b : N) :
  (length bs <= n)%nat -> In b bs -> 245 <= b -> utf8_decode bs = None.
Proof.
  revert bs. induction n as [|n IH]; intros bs Hlen Hin Hb.
  - destruct bs; [contradiction|cbn in Hlen; lia].
  - destruct bs as [|b0 r]; [contradiction|]. cbn [length] in Hlen.
    cbn [utf8_decode]. unfold is_continuation.
    destruct (N.ltb_spec b0 128).
    { destruct Hin as [->|Hin]; [lia|]. rewrite (IH r) by (assumption || lia). reflexivity. }
    destruct (N.ltb_spec b0 194); [reflexivity|].
    destruct (N.ltb_spec b0 224).
    { destruct r as [|b1 r1]; [reflexivity|]. cbn [length] in Hlen.
      destruct (N.leb_spec 128 b1), (N.ltb_spec b1 192); cbn [andb]; try reflexivity.
      destruct Hin as [->|[->|Hin]]; [lia|lia|].
      rewrite (IH r1) by (assumption || lia). reflexivity. }
    destruct (N.ltb_spec b0 240).
    { destruct r as [|b1 [|b2 r2]]; [reflexivity|reflexivity|]. cbn [length] in Hlen.
      destruct (N.leb_spec 128 b1), (N.ltb_spec b1 192),
        (N.leb_spec 128 b2), (N.ltb_spec b2 192); cbn [andb]; try reflexivity.
      destruct Hin as [->|[->|[->|Hin]]]; [lia|lia|lia|].
      rewrite (IH r2) by (assumption || lia). rewrite cons_opt_None.
      now destruct (_ && _). }
    destruct (N.ltb_spec b0 245); [|reflexivity].
    destruct r as [|b1 [|b2 [|b3 r3]]]; [reflexivity|reflexivity|reflexivity|].
    cbn [length] in Hlen.
    destruct (N.leb_spec 128 b1), (N.ltb_spec b1 192),
      (N.leb_spec 128 b2), (N.ltb_spec b2 192),
      (N.leb_spec 128 b3), (N.ltb_spec b3 192); cbn [andb]; try reflexivity.
    destruct Hin as [->|[->|[->|[->|Hin]]]]; [lia|lia|lia|lia|].
    rewrite (IH r3) by (assumption || lia). rewrite cons_opt_None.
    now destruct (_ && _).
Qed.

(** ** Decimal strings *)

Lemma digits_of_uint_inj (d d' : Decimal.uint) :
  digits_of_uint d = digits_of_uint d' -> d = d'.
Proof.
  revert d'. induction d; intros d' H; destruct d'; cbn in H;
    try discriminate; try reflexivity;
    injection H as H; f_equal; now apply IHd.
Qed.

Lemma str_of_int_inj (z z' : Z) : str_of_int z = str_of_int z' -> z = z'.
Proof.
  unfold str_of_int. intros H. apply DecimalZ.to_int_inj.
  destruct (Z.to_int z) as [d|d], (Z.to_int z') as [d'|d'].
  - f_equal. now apply digits_of_uint_inj.
  - destruct d; cbn in H; discriminate.
  - destruct d'; cbn in H; discriminate.
  - injection H as H. f_equal. now apply digits_of_uint_inj.
Qed.

Lemma citation_ids_from (hits : list (gmap (list N) pyval)) (k : nat) :
  NoDup (map c_id (imap (fun i h => spec_citation (S (k + i)) h) hits))
  /\ forall x, In x (map c_id (imap (fun i h => spec_citation (S (k + i)) h) hits)) ->
       exists j, (k < j)%nat /\ x = str_of_int (Z.of_nat j).
Proof.
  revert k. induction hits as [|h hits IH]; intros k.
  - split; [constructor|intros x []].
  - cbn [imap map]. 
    assert (E : imap ((fun i h0 => spec_citation (S (k + i)) h0) ∘ S) hits
                = imap (fun i h0 => spec_citation (S (S k + i)) h0) hits).
    { apply imap_ext. intros i x _. unfold compose.
      now replace (k + S i)%nat with (S k + i)%nat by lia. }
    rewrite E. destruct (IH (S k)) as [Hnd Hin]. split.
    + apply NoDup_cons. split; [|exact Hnd].
      intros Hx. apply list_elem_of_In in Hx. destruct (Hin _ Hx) as [j [Hj Ej]].
      cbn in Ej. apply str_of_int_inj in Ej. lia.
    + intros x [<-|Hx].
      * exists (S k). split; [lia|]. cbn. now rewrite Nat.add_0_r.
      * destruct (Hin x Hx) as [j [Hj Ej]]. exists j. split; [lia|exact Ej].
Qed.

(** ** Growth *)

Lemma length_appended (e : env) (query : ChatQuery) (s : state) :
  (1 <= length (appended e query s) <= 3)%nat.
Proof.
  unfold appended. rewrite length_app. cbn [length].
  destruct (kb_hits_of e query); destruct (llm_invoke e _); cbn; lia.
Qed.

Lemma chat_endpoint_bounded (e : env) (query : ChatQuery) (s : state) (k : nat) :
  store_bounded k (CONVERSATIONS s) ->
  store_bounded (S k) (CONVERSATIONS (snd (chat_endpoint e query s))).
Proof.
  intros Hinv sid h.
  destruct (decide (question_of query = [])) as [Hq|Hq].
  - rewrite chat_endpoint_blank by assumption. cbn [snd]. intros Hh.
    specialize (Hinv _ _ Hh). lia.
  - rewrite chat_endpoint_CONVERSATIONS by assumption.
    destruct (decide (session_of e query = sid)) as [<-|Hne].
    + rewrite lookup_insert_eq. intros [= <-]. rewrite length_app.
      pose proof (length_appended e query s).
      unfold transcript_before.
      destruct (CONVERSATIONS s !! session_of e query) as [h0|] eqn:E; cbn.
      * specialize (Hinv _ _ E). lia.
      * lia.
    + rewrite lookup_insert_ne by assumption. intros Hh. specialize (Hinv _ _ Hh). lia.
Qed.

Lemma run_bounded (steps : list (env * ChatQuery)) (s : state) (k : nat) :
  store_bounded k (CONVERSATIONS s) ->
  store_bounded (k + length steps) (CONVERSATIONS (run steps s)).
Proof.
  revert s k. induction steps as [|[e query] steps IH]; intros s k Hinv.
  - cbn. now rewrite Nat.add_0_r.
  - cbn [run foldl length fst snd]. replace (k + S (length steps))%nat
      with (S k + length steps)%nat by lia.
    apply (IH _ (S k)), chat_endpoint_bounded, Hinv.
Qed.

(** ** Trimming twice *)

Lemma lstrip_fixed (s : list N) :
  (forall c, head s = Some c -> isspace c = false) -> lstrip s = s.
Proof.
  destruct s as [|c s]; [reflexivity|]. intros H. cbn [lstrip].
  now rewrite (H c eq_refl).
Qed.

Lemma strip_idempotent (s : list N) : strip (strip s) = strip s.
Proof.
  destruct (strip_spec s) as (p & p' & _ & _ & _ & Hh & Hl).
  unfold strip at 1, rstrip. rewrite (lstrip_fixed (strip s)) by exact Hh.
  rewrite lstrip_fixed; [apply rev_involutive|].
  intros c Hc. apply Hl. rewrite <- (rev_involutive (strip s)).
  now rewrite last_rev_head.
Qed.

Lemma lstrip_spaces (p x : list N) :
  forallb isspace p = true -> lstrip (p ++ x) = lstrip x.
Proof.
  induction p as [|c p IH]; [reflexivity|]. cbn [forallb app lstrip].
  intros [Hc Hp]%andb_prop. rewrite Hc. now apply IH.
Qed.

(** Trimming has one result, that of [strip]. *)
Lemma trimmed_of_strip (raw t : list N) : trimmed_of raw t -> t = strip raw.
Proof.
  intros [(p & p' & -> & Hp & Hp') [Hh Hl]]. unfold strip, rstrip.
  rewrite (lstrip_spaces _ _ Hp).
  destruct t as [|c t].
  - cbn [app]. rewrite <- (app_nil_r p') at 1. rewrite (lstrip_spaces _ _ Hp').
    reflexivity.
  - rewrite (lstrip_fixed ((c :: t) ++ p')) by (intros c' E; apply Hh; exact E).
    assert (Hr : forallb isspace (rev p') = true).
    { rewrite forallb_forall in *. intros x Hx. apply Hp', in_rev, Hx. }
    rewrite rev_app_distr, (lstrip_spaces _ _ Hr).
    rewrite lstrip_fixed; [now rewrite rev_involutive|].
    intros c' E. apply Hl. rewrite <- E, <- last_rev_head. now rewrite rev_involutive.
Qed.

Lemma spec_text_trimmed (h : gmap (list N) pyval) : strip (spec_text h) = spec_text h.
Proof.
  unfold spec_text. destruct (h !! lit "text"); [apply strip_idempotent|reflexivity].
Qed.

(** ** No transcript holds the preamble alone *)

Lemma chat_endpoint_asked (e : env) (query : ChatQuery) (s : state) :
  store_asked (CONVERSATIONS s) ->
  store_asked (CONVERSATIONS (snd (chat_endpoint e query s))).
Proof.
  intros Hinv sid h.
  destruct (decide (question_of query = [])) as [Hq|Hq].
  - rewrite chat_endpoint_blank by assumption. apply Hinv.
  - rewrite chat_endpoint_CONVERSATIONS by assumption.
    destruct (decide (session_of e query = sid)) as [<-|Hne].
    + rewrite lookup_insert_eq. intros [= <-]. rewrite length_app.
      pose proof (length_appended e query s).
      unfold transcript_before.
      destruct (CONVERSATIONS s !! session_of e query) as [h0|] eqn:E; cbn.
      * specialize (Hinv _ _ E). lia.
      * lia.
    + rewrite lookup_insert_ne by assumption. apply Hinv.
Qed.

Lemma run_asked (steps : list (env * ChatQuery)) (s : state) :
  store_asked (CONVERSATIONS s) -> store_asked (CONVERSATIONS (run steps s)).
Proof.
  revert s. induction steps as [|[e query] steps IH]; intros s Hinv; [exact Hinv|].
  cbn. apply IH, chat_endpoint_asked, Hinv.
Qed.

(** ** What an exchange depends on *)

Lemma prompt_transcript_local (e : env) (query : ChatQuery) (s t : state) :
  CONVERSATIONS s !! session_of e query = CONVERSATIONS t !! session_of e query ->
  prompt_transcript e query s = prompt_transcript e query t.
Proof. intros H. unfold prompt_transcript, transcript_before. now rewrite H. Qed.

Lemma chat_endpoint_local (e : env) (query : ChatQuery) (s t : state) :
  CONVERSATIONS s !! session_of e query = CONVERSATIONS t !! session_of e query ->
  fst (chat_endpoint e query s) = fst (chat_endpoint e query t)
  /\ transcript_before s (session_of e query) ++ appended e query s
     = transcript_before t (session_of e query) ++ appended e query t.
Proof.
  intros H. pose proof (prompt_transcript_local e query s t H) as Hp. split.
  - destruct (decide (question_of query = [])) as [Hq|Hq].
    + now rewrite !chat_endpoint_blank by assumption.
    + rewrite !chat_endpoint_exchange by assumption. rewrite Hp.
      now destruct (llm_invoke e _).
  - unfold appended, transcript_before. now rewrite H, Hp.
Qed.

Lemma chat_endpoint_frame (e : env) (query : ChatQuery) (s t : state) :
  CONVERSATIONS s = CONVERSATIONS t ->
  disk s = disk t ->
  fst (chat_endpoint e query s) = fst (chat_endpoint e query t)
  /\ CONVERSATIONS (snd (chat_endpoint e query s))
     = CONVERSATIONS (snd (chat_endpoint e query t))
  /\ disk (snd (chat_endpoint e query s)) = disk (snd (chat_endpoint e query t)).
Proof.
  intros Hc Hd.
  destruct (decide (question_of query = [])) as [Hq|Hq].
  - rewrite !chat_endpoint_blank by assumption. cbn. auto.
  - assert (Hp : prompt_transcript e query s = prompt_transcript e query t)
      by (apply prompt_transcript_local; now rewrite Hc).
    rewrite !chat_endpoint_exchange by assumption. rewrite Hp.
    destruct (llm_invoke e _); cbn [fst snd];
      unfold state_after_answer, state_at_invoke; cbn [CONVERSATIONS disk];
      rewrite ?Hp, ?Hc, ?Hd; auto.
Qed.

(** The file a successful exchange wrote loads as the whole dict. *)
Lemma exchange_leaves_loadable_file (e : env) (query : ChatQuery) (s s' : state)
        (resp : ChatResponse) :
  chat_endpoint e query s = (Ok resp, s') ->
  write_succeeds e (CONVERSATIONS s') = true ->
  load_CONVERSATIONS (disk s') = Sessions (CONVERSATIONS s').
Proof.
  intros H Hw.
  destruct (chat_endpoint_Ok_inv _ _ _ _ _ H) as (Hq & Hllm & Hresp & ->).
  unfold state_after_answer in *. cbn [CONVERSATIONS disk] in *.
  unfold write_succeeds, written_bytes in *.
  destruct (fs_ok e); [|discriminate].
  destruct (utf8_encode _) as [bytes|] eqn:Hb; [|discriminate].
  now apply load_saved_text.
Qed.


(** ** The properties *)

(** X1. [to_langchain_messages] renders the turns in order, one message
    per turn whose role is system, user or assistant, and drops every other
    turn without a word: the rendering is never longer than the transcript,
    and as long exactly when every role is one of the three. *)
Theorem rendering_keeps_known_roles (h : list turn) :
  to_langchain_messages h = omap message_of h
  /\ (length (to_langchain_messages h) <= length h)%nat
  /\ (length (to_langchain_messages h) = length h <-> forallb renderable h = true).
Proof.
  rewrite render_omap. split; [reflexivity|]. split; [apply length_omap_le|].
  split; [apply length_omap_full|apply length_omap_renderable].
Qed.

(** X2. In every state reached from an empty dict, the messages the
    Inference Gateway is invoked on start with the system message holding
    the preamble and end with the human message holding the trimmed
    question, and there is one message per turn of the transcript. *)
Theorem prompt_starts_with_preamble (steps : list (env * ChatQuery))
        (d : option (list N)) (e : env) (query : ChatQuery) :
  question_of query <> [] ->
  let s := run steps (empty_store d) in
  let msgs := to_langchain_messages (prompt_transcript e query s) in
  (exists pre post,
     log (snd (chat_endpoint e query s)) = log s ++ pre ++ CallInvoke msgs :: post)
  /\ head msgs = Some (SystemMessage SYSTEM_PROMPT)
  /\ last msgs = Some (HumanMessage (question_of query))
  /\ length msgs = length (prompt_transcript e query s).
Proof.
  intros Hq s msgs.
  destruct (transcript_before_reachable steps d (session_of e query)) as [[rest Hrest] Hren].
  fold s in Hrest, Hren.
  assert (Hp : forallb renderable (prompt_transcript e query s) = true).
  { unfold prompt_transcript. rewrite !forallb_app, Hren. cbn [forallb andb].
    destruct (kb_hits_of e query); reflexivity. }
  split; [|split; [|split]].
  - rewrite chat_endpoint_exchange by assumption. fold msgs.
    exists (retrieval_events e query).
    destruct (llm_invoke e msgs); cbn [snd]; unfold state_after_answer, state_at_invoke;
      cbn [log]; fold msgs; rewrite <- ?app_assoc; cbn [app]; eexists; reflexivity.
  - subst msgs. unfold prompt_transcript. rewrite Hrest, render_omap.
    cbn [app omap list_omap].
    change (message_of system_turn) with (Some (SystemMessage SYSTEM_PROMPT)).
    reflexivity.
  - subst msgs. unfold prompt_transcript. rewrite app_assoc, render_app.
    apply last_snoc.
  - subst msgs. rewrite render_omap. now apply length_omap_renderable.
Qed.

Lemma prompt_starts_with_preamble_witness :
  question_of Sample.ask_again <> []
  /\ (let s := run [(Sample.env_up, Sample.ask_gst)] (empty_store None) in
      let msgs :=
        to_langchain_messages (prompt_transcript Sample.env_no_kb Sample.ask_again s) in
      (exists pre post,
         log (snd (chat_endpoint Sample.env_no_kb Sample.ask_again s))
         = log s ++ pre ++ CallInvoke msgs :: post)
      /\ head msgs = Some (SystemMessage SYSTEM_PROMPT)
      /\ last msgs = Some (HumanMessage (question_of Sample.ask_again))
      /\ length msgs = length (prompt_transcript Sample.env_no_kb Sample.ask_again s)).
Proof.
  assert (Hq : question_of Sample.ask_again <> [])
    by (intros H; vm_compute in H; discriminate H).
  split; [exact Hq|].
  exact (prompt_starts_with_preamble [(Sample.env_up, Sample.ask_gst)] None
           Sample.env_no_kb Sample.ask_again Hq).
Defined.

(** X3. The session of a successful exchange is the one the request
    names; a request naming none, or naming the empty string, gets the
    fresh identifier. The response carries that identifier and the
    transcript stored under it ends with the question and the answer. *)
Theorem session_id_resolution (e : env) (query : ChatQuery) (s s' : state)
        (resp : ChatResponse) :
  chat_endpoint e query s = (Ok resp, s') ->
  let sid :=
    match q_session_id query with
    | Some (c :: given) => c :: given
    | Some [] => uuid4 e
    | None => uuid4 e
    end in
  r_session_id resp = Some sid
  /\ exists before,
       CONVERSATIONS s' !! sid
       = Some (before ++ [Turn (lit "user") (question_of query);
                          Turn (lit "assistant") (r_answer resp)]).
Proof.
  intros H sid.
  destruct (chat_endpoint_Ok_inv _ _ _ _ _ H) as (Hq & Hllm & Hresp & ->).
  assert (Hsid : session_of e query = sid).
  { unfold session_of. subst sid. destruct (q_session_id query) as [[|c g]|]; reflexivity. }
  split; [rewrite Hresp; cbn; now rewrite Hsid|].
  unfold state_after_answer, prompt_transcript. cbn [CONVERSATIONS].
  rewrite Hsid, lookup_insert_eq.
  exists (transcript_before s sid ++ evidence_turns (kb_hits_of e query)).
  rewrite <- !app_assoc. reflexivity.
Qed.

Lemma session_id_resolution_witness :
  chat_endpoint Sample.env_up Sample.ask_gst (empty_store None)
  = (Ok Sample.gst_response, Sample.after_gst)
  /\ (let sid :=
        match q_session_id Sample.ask_gst with
        | Some (c :: given) => c :: given
        | Some [] => uuid4 Sample.env_up
        | None => uuid4 Sample.env_up
        end in
      r_session_id Sample.gst_response = Some sid
      /\ exists before,
           CONVERSATIONS Sample.after_gst !! sid
           = Some (before ++ [Turn (lit "user") (question_of Sample.ask_gst);
                              Turn (lit "assistant") (r_answer Sample.gst_response)])).
Proof.
  split.
  - vm_compute. reflexivity.
  - apply (session_id_resolution Sample.env_up Sample.ask_gst (empty_store None)
             Sample.after_gst Sample.gst_response).
    vm_compute. reflexivity.
Defined.

(** X4. Whether the sessions file can be written has no bearing on what
    an exchange returns nor on what it leaves in the dict: a failure to
    persist is printed and swallowed. *)
Theorem persistence_failure_is_swallowed (e : env) (ok : bool)
        (fault : list N * option (list N)) (query : ChatQuery) (s : state) :
  fst (chat_endpoint (with_fs ok fault e) query s) = fst (chat_endpoint e query s)
  /\ CONVERSATIONS (snd (chat_endpoint (with_fs ok fault e) query s))
     = CONVERSATIONS (snd (chat_endpoint e query s)).
Proof.
  destruct (decide (question_of query = [])) as [Hq|Hq].
  - rewrite !chat_endpoint_blank by assumption. split; reflexivity.
  - rewrite !chat_endpoint_exchange by assumption.
    change (prompt_transcript (with_fs ok fault e) query s)
      with (prompt_transcript e query s).
    change (llm_invoke (with_fs ok fault e)) with (llm_invoke e).
    destruct (llm_invoke e _) as [answer|msg]; split; reflexivity.
Qed.

(** X5. After a successful exchange whose write went through, a process
    started over the file holds the same dict, with every session in it,
    and answers any further request as the running process would: same
    result, same dict, same file. *)
Theorem sessions_survive_restart (e : env) (query : ChatQuery) (s s' : state)
        (resp : ChatResponse) :
  chat_endpoint e query s = (Ok resp, s') ->
  write_succeeds e (CONVERSATIONS s') = true ->
  exists s0,
    start (disk s') = Some s0
    /\ CONVERSATIONS s0 = CONVERSATIONS s'
    /\ forall e2 q2,
         fst (chat_endpoint e2 q2 s0) = fst (chat_endpoint e2 q2 s')
         /\ CONVERSATIONS (snd (chat_endpoint e2 q2 s0))
            = CONVERSATIONS (snd (chat_endpoint e2 q2 s'))
         /\ disk (snd (chat_endpoint e2 q2 s0)) = disk (snd (chat_endpoint e2 q2 s')).
Proof.
  intros H Hw. unfold start.
  rewrite (exchange_leaves_loadable_file _ _ _ _ _ H Hw).
  eexists. split; [reflexivity|]. split; [reflexivity|].
  intros e2 q2. now apply chat_endpoint_frame.
Qed.

Lemma sessions_survive_restart_witness :
  chat_endpoint Sample.env_up Sample.ask_gst (empty_store None)
  = (Ok Sample.gst_response, Sample.after_gst)
  /\ write_succeeds Sample.env_up (CONVERSATIONS Sample.after_gst) = true
  /\ exists s0,
       start (disk Sample.after_gst) = Some s0
       /\ CONVERSATIONS s0 = CONVERSATIONS Sample.after_gst
       /\ forall e2 q2,
            fst (chat_endpoint e2 q2 s0) = fst (chat_endpoint e2 q2 Sample.after_gst)
            /\ CONVERSATIONS (snd (chat_endpoint e2 q2 s0))
               = CONVERSATIONS (snd (chat_endpoint e2 q2 Sample.after_gst))
            /\ disk (snd (chat_endpoint e2 q2 s0))
               = disk (snd (chat_endpoint e2 q2 Sample.after_gst)).
Proof.
  assert (H : chat_endpoint Sample.env_up Sample.ask_gst (empty_store None)
              = (Ok Sample.gst_response, Sample.after_gst))
    by (vm_compute; reflexivity).
  assert (Hw : write_succeeds Sample.env_up (CONVERSATIONS Sample.after_gst) = true)
    by (vm_compute; reflexivity).
  split; [exact H|]. split; [exact Hw|].
  exact (sessions_survive_restart Sample.env_up Sample.ask_gst (empty_store None)
           Sample.after_gst Sample.gst_response H Hw).
Defined.

(** X6. A sessions file holding a byte from 0xF5 on, which no utf-8 text
    holds, is not treated like malformed JSON: the load does not fall
    back to an empty dict but raises, [UnicodeDecodeError] not being
    caught. *)
Theorem load_raises_on_invalid_utf8 (bytes : list N) (b : N) :
  In b bytes -> 245 <= b ->
  load_CONVERSATIONS (Some bytes) = DecodeError.
Proof.
  intros Hin Hb. unfold load_CONVERSATIONS.
  now rewrite (utf8_decode_bad_byte (length bytes) bytes b).
Qed.

Lemma load_raises_on_invalid_utf8_witness :
  In 255 [123; 255; 125]
  /\ 245 <= 255
  /\ load_CONVERSATIONS (Some [123; 255; 125]) = DecodeError.
Proof.
  assert (Hin : In 255 [123; 255; 125]) by (right; left; reflexivity).
  assert (Hb : 245 <= 255) by lia.
  split; [exact Hin|]. split; [exact Hb|].
  exact (load_raises_on_invalid_utf8 [123; 255; 125] 255 Hin Hb).
Defined.

(** X7. [new_session] hands out an identifier without recording it: the
    state is returned as it was. The session comes to exist with the
    first non-blank question asked under that identifier, and its
    transcript then starts with the preamble. *)
Theorem new_session_registers_nothing (e e2 : env) (question : list N) (s : state) :
  CONVERSATIONS s !! uuid4 e = None ->
  uuid4 e <> [] ->
  strip question <> [] ->
  new_session e s
  = (Ok {| sr_session_id := uuid4 e; sr_message := lit "New session created" |}, s)
  /\ exists more,
       CONVERSATIONS (snd (chat_endpoint e2 (ask_in (uuid4 e) question) s)) !! uuid4 e
       = Some (system_turn :: more).
Proof.
  intros Hnew Hid Hq. split; [reflexivity|].
  assert (Hsid : session_of e2 (ask_in (uuid4 e) question) = uuid4 e).
  { unfold session_of, ask_in. cbn. destruct (uuid4 e); [contradiction|reflexivity]. }
  rewrite chat_endpoint_CONVERSATIONS by exact Hq.
  rewrite Hsid, lookup_insert_eq. unfold transcript_before. rewrite Hnew.
  eexists. reflexivity.
Qed.

Lemma new_session_registers_nothing_witness :
  CONVERSATIONS (empty_store None) !! uuid4 Sample.env_up = None
  /\ uuid4 Sample.env_up <> []
  /\ strip (lit "What is GST?") <> []
  /\ new_session Sample.env_up (empty_store None)
     = (Ok {| sr_session_id := uuid4 Sample.env_up;
              sr_message := lit "New session created" |}, empty_store None)
  /\ exists more,
       CONVERSATIONS
         (snd (chat_endpoint Sample.env_up
                 (ask_in (uuid4 Sample.env_up) (lit "What is GST?")) (empty_store None)))
       !! uuid4 Sample.env_up
       = Some (system_turn :: more).
Proof.
  assert (Hn : CONVERSATIONS (empty_store None) !! uuid4 Sample.env_up = None)
    by reflexivity.
  assert (Hid : uuid4 Sample.env_up <> [])
    by (intros H; vm_compute in H; discriminate H).
  assert (Hq : strip (lit "What is GST?") <> [])
    by (intros H; vm_compute in H; discriminate H).
  split; [exact Hn|]. split; [exact Hid|]. split; [exact Hq|].
  exact (new_session_registers_nothing Sample.env_up Sample.env_up (lit "What is GST?")
           (empty_store None) Hn Hid Hq).
Defined.

(** X8. An exchange, whatever its outcome, changes the transcript of no
    session but its own, removes no session, and adds at most one. *)
Theorem exchange_touches_one_session (e : env) (query : ChatQuery) (s : state) :
  let s' := snd (chat_endpoint e query s) in
  (forall other, other <> session_of e query ->
     CONVERSATIONS s' !! other = CONVERSATIONS s !! other)
  /\ (forall sid, is_Some (CONVERSATIONS s !! sid) -> is_Some (CONVERSATIONS s' !! sid))
  /\ (size (CONVERSATIONS s') <= S (size (CONVERSATIONS s)))%nat.
Proof.
  cbn zeta. destruct (decide (question_of query = [])) as [Hq|Hq].
  - rewrite chat_endpoint_blank by assumption. cbn [snd].
    split; [intros; reflexivity|]. split; [auto|lia].
  - rewrite chat_endpoint_CONVERSATIONS by assumption. split; [|split].
    + intros other Hne. apply lookup_insert_ne. congruence.
    + intros sid [h Hh]. destruct (decide (session_of e query = sid)) as [<-|Hne].
      * rewrite lookup_insert_eq. now eexists.
      * rewrite lookup_insert_ne by assumption. now exists h.
    + destruct (CONVERSATIONS s !! session_of e query) as [h|] eqn:E.
      * rewrite map_size_insert_Some by (rewrite E; now eexists). lia.
      * rewrite map_size_insert_None by assumption. lia.
Qed.

(** X9. A request with a non-blank question logs, after what was logged
    before: one retrieval of the trimmed question with [k = 5], prints
    only, one invocation of the model, and then nothing when the request
    fails, or one write of the sessions file followed by prints only when
    it succeeds. *)
Theorem one_retrieval_then_one_inference (e : env) (query : ChatQuery) (s : state) :
  question_of query <> [] ->
  let r := chat_endpoint e query s in
  exists prints msgs tail,
    log (snd r)
    = log s ++ CallRetrieve (question_of query) 5 :: prints ++ CallInvoke msgs :: tail
    /\ forallb is_print prints = true
    /\ match fst r with
       | Ok _ =>
           exists text prints', tail = WriteFile text :: prints'
                                /\ forallb is_print prints' = true
       | Raise _ => tail = []
       end.
Proof.
  intros Hq r. subst r. rewrite chat_endpoint_exchange by assumption.
  exists (match retrieve e (question_of query) 5 with
          | Raises msg => [PrintOut [lit "Retriever error:"; msg]]
          | Returns _ => []
          end).
  destruct (llm_invoke e _) as [answer|msg] eqn:El; cbn [fst snd];
    unfold state_after_answer, state_at_invoke, retrieval_events; cbn [log];
    rewrite <- ?app_assoc; cbn [app]; do 2 eexists.
  - split; [reflexivity|]. split; [now destruct (retrieve e _ _)|].
    do 2 eexists. split; [reflexivity|]. now destruct (write_succeeds e _).
  - split; [reflexivity|]. split; [now destruct (retrieve e _ _)|reflexivity].
Qed.

Lemma one_retrieval_then_one_inference_witness :
  question_of Sample.ask_gst <> []
  /\ (let r := chat_endpoint Sample.env_up Sample.ask_gst (empty_store None) in
      exists prints msgs tail,
        log (snd r)
        = log (empty_store None)
          ++ CallRetrieve (question_of Sample.ask_gst) 5
             :: prints ++ CallInvoke msgs :: tail
        /\ forallb is_print prints = true
        /\ match fst r with
           | Ok _ =>
               exists text prints', tail = WriteFile text :: prints'
                                    /\ forallb is_print prints' = true
           | Raise _ => tail = []
           end).
Proof.
  assert (Hq : question_of Sample.ask_gst <> [])
    by (intros H; vm_compute in H; discriminate H).
  split; [exact Hq|].
  exact (one_retrieval_then_one_inference Sample.env_up Sample.ask_gst
           (empty_store None) Hq).
Defined.

(** X10. The citations of a response have pairwise distinct ids. *)
Theorem citation_ids_are_distinct (e : env) (query : ChatQuery) (s s' : state)
        (resp : ChatResponse) :
  chat_endpoint e query s = (Ok resp, s') ->
  exists cits, r_citations resp = Some cits /\ NoDup (map c_id cits).
Proof.
  intros H.
  destruct (chat_endpoint_Ok_inv _ _ _ _ _ H) as (Hq & Hllm & Hresp & ->).
  eexists. split; [rewrite Hresp; reflexivity|].
  exact (proj1 (citation_ids_from (kb_hits_of e query) 0)).
Qed.

Lemma citation_ids_are_distinct_witness :
  chat_endpoint Sample.env_up Sample.ask_gst (empty_store None)
  = (Ok Sample.gst_response, Sample.after_gst)
  /\ exists cits, r_citations Sample.gst_response = Some cits /\ NoDup (map c_id cits).
Proof.
  split.
  - vm_compute. reflexivity.
  - apply (citation_ids_are_distinct Sample.env_up Sample.ask_gst (empty_store None)
             Sample.after_gst Sample.gst_response).
    vm_compute. reflexivity.
Defined.

(** X11. After [n] requests from an empty dict every transcript holds at
    least two turns, the preamble and a question, and at most [1 + 3 * n]:
    a request adds three turns at most, and nothing ever removes one. *)
Theorem transcript_length_bound (steps : list (env * ChatQuery)) (d : option (list N))
        (sid : list N) (h : list turn) :
  CONVERSATIONS (run steps (empty_store d)) !! sid = Some h ->
  (2 <= length h <= 1 + 3 * length steps)%nat.
Proof.
  intros Hh. split.
  - assert (Ha : store_asked (CONVERSATIONS (empty_store d))).
    { intros k x Hk. cbn in Hk. rewrite lookup_empty in Hk. discriminate. }
    exact (run_asked steps _ Ha sid h Hh).
  - assert (Hb : store_bounded 0 (CONVERSATIONS (empty_store d))).
    { intros k x Hk. cbn in Hk. rewrite lookup_empty in Hk. discriminate. }
    exact (run_bounded steps _ 0 Hb sid h Hh).
Qed.

Lemma transcript_length_bound_witness :
  CONVERSATIONS (run [(Sample.env_up, Sample.ask_gst)] (empty_store None)) !! lit "u-1"
  = Some Sample.gst_transcript
  /\ (2 <= length Sample.gst_transcript
         <= 1 + 3 * length [(Sample.env_up, Sample.ask_gst)])%nat.
Proof.
  split.
  - vm_compute. reflexivity.
  - apply (transcript_length_bound [(Sample.env_up, Sample.ask_gst)] None (lit "u-1")
             Sample.gst_transcript).
    vm_compute. reflexivity.
Defined.

(** X12. Context is never pruned: the messages given to the model for the
    next question of a session are those given for the answered question
    before it, then its answer, then the new evidence if any, then the new
    question. *)
Theorem earlier_context_is_replayed (e1 e2 : env) (q1 q2 : ChatQuery) (s s1 : state)
        (resp1 : ChatResponse) :
  chat_endpoint e1 q1 s = (Ok resp1, s1) ->
  session_of e2 q2 = session_of e1 q1 ->
  to_langchain_messages (prompt_transcript e2 q2 s1)
  = to_langchain_messages (prompt_transcript e1 q1 s)
    ++ AIMessage (r_answer resp1)
    :: to_langchain_messages (evidence_turns (kb_hits_of e2 q2))
    ++ [HumanMessage (question_of q2)].
Proof.
  intros H Hsid.
  destruct (chat_endpoint_Ok_inv _ _ _ _ _ H) as (Hq & Hllm & Hresp & ->).
  unfold prompt_transcript at 1. unfold transcript_before, state_after_answer.
  cbn [CONVERSATIONS]. rewrite Hsid, lookup_insert_eq. cbn [default from_option id].
  rewrite !render_app. rewrite <- !app_assoc. reflexivity.
Qed.

Lemma earlier_context_is_replayed_witness :
  chat_endpoint Sample.env_up Sample.ask_gst (empty_store None)
  = (Ok Sample.gst_response, Sample.after_gst)
  /\ session_of Sample.env_no_kb Sample.ask_again
     = session_of Sample.env_up Sample.ask_gst
  /\ to_langchain_messages
       (prompt_transcript Sample.env_no_kb Sample.ask_again Sample.after_gst)
     = to_langchain_messages
         (prompt_transcript Sample.env_up Sample.ask_gst (empty_store None))
       ++ AIMessage (r_answer Sample.gst_response)
       :: to_langchain_messages
            (evidence_turns (kb_hits_of Sample.env_no_kb Sample.ask_again))
       ++ [HumanMessage (question_of Sample.ask_again)].
Proof.
  assert (H : chat_endpoint Sample.env_up Sample.ask_gst (empty_store None)
              = (Ok Sample.gst_response, Sample.after_gst))
    by (vm_compute; reflexivity).
  assert (Hs : session_of Sample.env_no_kb Sample.ask_again
               = session_of Sample.env_up Sample.ask_gst) by reflexivity.
  split; [exact H|]. split; [exact Hs|].
  exact (earlier_context_is_replayed Sample.env_up Sample.env_no_kb Sample.ask_gst
           Sample.ask_again (empty_store None) Sample.after_gst Sample.gst_response
           H Hs).
Defined.

(** X13. Trimming is done once and for all: submitting the question as
    it was recorded, in place of the question as it was typed, gives the
    same result and the same state. *)
Theorem trimmed_question_is_stable (e : env) (query : ChatQuery) (s : state) :
  chat_endpoint e
    {| q_question := Some (question_of query); q_session_id := q_session_id query |} s
  = chat_endpoint e query s.
Proof.
  unfold chat_endpoint. cbn [q_question q_session_id default from_option id].
  unfold question_of. now rewrite strip_idempotent.
Qed.

(** X14. The loop over the snippets builds the evidence and the citations
    side by side: there are as many of each as snippets, and the evidence
    of a snippet is the tag made of the id, source and chunk id of its
    citation, a newline, and a text with no whitespace around it. *)
Theorem tags_match_citations (hits : list (gmap (list N) pyval)) :
  let texts := fst (foldl format_hit ([], []) (enumerate 1 hits)) in
  let cits := snd (foldl format_hit ([], []) (enumerate 1 hits)) in
  length texts = length hits
  /\ length cits = length hits
  /\ forall (i : nat) text cit,
       texts !! i = Some text -> cits !! i = Some cit ->
       exists body,
         text = lit "[" ++ c_id cit ++ lit "] " ++ c_source cit
                ++ lit "#chunk" ++ c_chunk_id cit ++ [LF] ++ body
         /\ strip body = body.
Proof.
  rewrite format_hits_spec. cbn [fst snd]. rewrite !length_imap.
  split; [reflexivity|]. split; [reflexivity|].
  intros i text cit Ht Hc. rewrite list_lookup_imap in Ht.
  rewrite list_lookup_imap in Hc.
  destruct (hits !! i) as [h|]; [|discriminate]. cbn in Ht, Hc.
  injection Ht as <-. injection Hc as <-.
  exists (spec_text h). split; [reflexivity|apply spec_text_trimmed].
Qed.

(** X15. Exchanges in two different sessions do not see each other:
    each returns what it would return alone, and the dict they leave
    does not depend on their order. *)
Theorem exchanges_on_two_sessions_commute (e1 e2 : env) (q1 q2 : ChatQuery) (s : state) :
  session_of e1 q1 <> session_of e2 q2 ->
  let s1 := snd (chat_endpoint e1 q1 s) in
  let s2 := snd (chat_endpoint e2 q2 s) in
  fst (chat_endpoint e2 q2 s1) = fst (chat_endpoint e2 q2 s)
  /\ fst (chat_endpoint e1 q1 s2) = fst (chat_endpoint e1 q1 s)
  /\ CONVERSATIONS (snd (chat_endpoint e2 q2 s1))
     = CONVERSATIONS (snd (chat_endpoint e1 q1 s2)).
Proof.
  intros Hne s1 s2.
  assert (H1 : CONVERSATIONS s1 !! session_of e2 q2 = CONVERSATIONS s !! session_of e2 q2).
  { subst s1. destruct (decide (question_of q1 = [])) as [Hq|Hq].
    - now rewrite chat_endpoint_blank.
    - rewrite chat_endpoint_CONVERSATIONS by assumption. now apply lookup_insert_ne. }
  assert (H2 : CONVERSATIONS s2 !! session_of e1 q1 = CONVERSATIONS s !! session_of e1 q1).
  { subst s2. destruct (decide (question_of q2 = [])) as [Hq|Hq].
    - now rewrite chat_endpoint_blank.
    - rewrite chat_endpoint_CONVERSATIONS by assumption. apply lookup_insert_ne. congruence. }
  destruct (chat_endpoint_local e2 q2 s1 s H1) as [Hf1 Ha1].
  destruct (chat_endpoint_local e1 q1 s2 s H2) as [Hf2 Ha2].
  split; [exact Hf1|]. split; [exact Hf2|].
  destruct (decide (question_of q1 = [])) as [Hq1|Hq1];
    destruct (decide (question_of q2 = [])) as [Hq2|Hq2].
  - subst s1 s2. now rewrite !chat_endpoint_blank.
  - subst s1 s2. now rewrite !(chat_endpoint_blank e1 q1) by assumption.
  - subst s1 s2. now rewrite !(chat_endpoint_blank e2 q2) by assumption.
  - rewrite (chat_endpoint_CONVERSATIONS e2 q2 s1) by assumption.
    rewrite (chat_endpoint_CONVERSATIONS e1 q1 s2) by assumption.
    rewrite Ha1, Ha2. subst s1 s2.
    rewrite !chat_endpoint_CONVERSATIONS by assumption.
    apply insert_insert_ne. congruence.
Qed.

Lemma exchanges_on_two_sessions_commute_witness :
  session_of Sample.env_up Sample.ask_gst <> session_of Sample.env_up ask_tds
  /\ (let s1 := snd (chat_endpoint Sample.env_up Sample.ask_gst (empty_store None)) in
      let s2 := snd (chat_endpoint Sample.env_up ask_tds (empty_store None)) in
      fst (chat_endpoint Sample.env_up ask_tds s1)
      = fst (chat_endpoint Sample.env_up ask_tds (empty_store None))
      /\ fst (chat_endpoint Sample.env_up Sample.ask_gst s2)
         = fst (chat_endpoint Sample.env_up Sample.ask_gst (empty_store None))
      /\ CONVERSATIONS (snd (chat_endpoint Sample.env_up ask_tds s1))
         = CONVERSATIONS (snd (chat_endpoint Sample.env_up Sample.ask_gst s2))).
Proof.
  assert (Hne : session_of Sample.env_up Sample.ask_gst
                <> session_of Sample.env_up ask_tds)
    by (intros H; vm_compute in H; discriminate H).
  split; [exact Hne|].
  exact (exchanges_on_two_sessions_commute Sample.env_up Sample.env_up Sample.ask_gst
           ask_tds (empty_store None) Hne).
Defined.

(** X16. The page served at the root is the text of [static/index.html]:
    when the file holds the utf-8 encoding of a page without carriage
    return, the response has that page as content and status 200. *)
Theorem root_serves_the_page (page bytes : list N) :
  utf8_encode page = Some bytes ->
  forallb (fun c => negb (c =? 13)) page = true ->
  read_root (Some bytes) = Some {| h_content := page; h_status_code := 200 |}.
Proof.
  intros Hb Hcr. unfold read_root.
  now rewrite (utf8_decode_encode _ _ Hb), universal_newlines_id.
Qed.

Lemma root_serves_the_page_witness :
  utf8_encode (lit "<h1>GenTaxAI</h1>") = Some (lit "<h1>GenTaxAI</h1>")
  /\ forallb (fun c => negb (c =? 13)) (lit "<h1>GenTaxAI</h1>") = true
  /\ read_root (Some (lit "<h1>GenTaxAI</h1>"))
     = Some {| h_content := lit "<h1>GenTaxAI</h1>"; h_status_code := 200 |}.
Proof.
  assert (Hb : utf8_encode (lit "<h1>GenTaxAI</h1>") = Some (lit "<h1>GenTaxAI</h1>"))
    by reflexivity.
  assert (Hcr : forallb (fun c => negb (c =? 13)) (lit "<h1>GenTaxAI</h1>") = true)
    by reflexivity.
  split; [exact Hb|]. split; [exact Hcr|].
  exact (root_serves_the_page (lit "<h1>GenTaxAI</h1>") (lit "<h1>GenTaxAI</h1>") Hb Hcr).
Defined.

(** X17. The three outcomes of a request and nothing else: the
    empty-question error exactly for a blank question; the inference
    error, carrying the text of the exception, exactly when the question
    is not blank and the model raises; a response, whose answer is what
    the model returned, unchanged, exactly when the question is not blank
    and the model returns. Retrieval and persistence never decide. *)
Theorem outcome_of_exchange (e : env) (query : ChatQuery) (s : state) :
  match fst (chat_endpoint e query s) with
  | Ok resp =>
      question_of query <> []
      /\ llm_invoke e (to_langchain_messages (prompt_transcript e query s))
         = Returns (r_answer resp)
  | Raise ex =>
      (question_of query = [] /\ ex = HTTPException 400 (lit "Empty question"))
      \/ (question_of query <> []
          /\ exists msg,
               llm_invoke e (to_langchain_messages (prompt_transcript e query s))
               = Raises msg
               /\ ex = HTTPException 500 (lit "LLM error: " ++ msg))
  end.
Proof.
  destruct (decide (question_of query = [])) as [Hq|Hq].
  - rewrite chat_endpoint_blank by assumption. left. now split.
  - rewrite chat_endpoint_exchange by assumption.
    destruct (llm_invoke e _) as [answer|msg] eqn:E; cbn [fst].
    + now split.
    + right. split; [assumption|]. exists msg. now split.
Qed.
